(** * HAL Contract v2: the Python reference implementation, embedded in Rocq

    A shallow embedding of [python/hal_contract/backend.py]: the job status
    enumeration, the gate-set, topology, validation and counts value types,
    the execution result, and the default [Backend.wait] polling loop,
    followed by the properties the contract states about them.

    Conventions of the embedding:
    - Python [int] is [Z], [str] is [string], [list] is [list], [T | None]
      is [option T];
    - a Python [dict] is an association list in insertion order (the order
      [max] and [items()] see), with at most one binding per key;
    - the result of Python's true division [int / int] is represented by the
      exact quotient in [Q]: rounding to the nearest binary64 float is
      outside the model, while a zero divisor and a quotient too large for
      a float raise as in Python;
    - code that may raise returns an [Outcome]; the asynchronous backend
      operations are functions of an explicit world state, and every call a
      coroutine awaits is recorded in a trace. *)

From Stdlib Require Import ZArith QArith List String Bool Lia.
Import ListNotations.

Local Open Scope string_scope.
Local Open Scope list_scope.
Local Open Scope Z_scope.

(* ------------------------------------------------------------------ *)
(** ** Exceptions and outcomes *)

(** The error taxonomy of the module ([HalError] and its subclasses), each
    carrying its message, and the two built-in exceptions the arithmetic of
    the module can raise. *)
Inductive Exception : Type :=
| HalError (msg : string)
| BackendUnavailableError (msg : string)
| TimeoutError (msg : string)
| InvalidCircuitError (msg : string)
| CircuitTooLargeError (msg : string)
| InvalidShotsError (msg : string)
| UnsupportedError (msg : string)
| SubmissionFailedError (msg : string)
| JobFailedError (msg : string)
| JobCancelledError (msg : string)
| JobNotFoundError (msg : string)
| AuthenticationFailedError (msg : string)
| ConfigurationError (msg : string)
| BackendError (msg : string)
| ZeroDivisionError (msg : string)
| OverflowError (msg : string).

(** What a Python call produces: a value, or a raised exception. *)
Inductive Outcome (A : Type) : Type :=
| Returns (v : A)
| Raises (e : Exception).

Arguments Returns {A} v.
Arguments Raises {A} e.

Definition outcome_bind {A B : Type} (m : Outcome A) (f : A -> Outcome B)
  : Outcome B :=
  match m with
  | Returns v => f v
  | Raises e => Raises e
  end.

(** [for x in xs: ys.append(f x)], stopping at the first exception. *)
Fixpoint outcome_map {A B : Type} (f : A -> Outcome B) (xs : list A)
  : Outcome (list B) :=
  match xs with
  | [] => Returns []
  | x :: xs' =>
      outcome_bind (f x) (fun y =>
      outcome_bind (outcome_map f xs') (fun ys => Returns (y :: ys)))
  end.

(** The least magnitude that rounds, to nearest and ties to even, beyond
    the largest binary64 float [2^1024 - 2^971]. *)
Definition float_overflow_bound : Z := 2 ^ 1024 - 2 ^ 970.

(** The quotient [a / b], [b] not 0, is too large for a float. *)
Definition float_overflows (a b : Z) : bool :=
  float_overflow_bound * Z.abs b <=? Z.abs a.

(** Python's [a / b] on integers: the correctly rounded quotient, here the
    exact one, unless the divisor is 0 or the rounded quotient is out of
    the float range. *)
Definition true_div (a b : Z) : Outcome Q :=
  if b =? 0 then Raises (ZeroDivisionError "division by zero")
  else if float_overflows a b
       then Raises (OverflowError
                      "integer division result too large for a float")
  else Returns (Qdiv (inject_Z a) (inject_Z b)).

(** Python's [range(n)]: empty when [n <= 0]. *)
Definition range (n : Z) : list Z := map Z.of_nat (seq 0 (Z.to_nat n)).

(** Python's [range(a, b)]. *)
Definition range_from (a b : Z) : list Z := map (Z.add a) (range (b - a)).

(** Python's [sum(xs)] on integers: left to right from 0. *)
Definition sum (xs : list Z) : Z := fold_left Z.add xs 0.

(** Python's [x in xs] on a list of strings. *)
Definition str_in (x : string) (xs : list string) : bool :=
  existsb (String.eqb x) xs.

(* ------------------------------------------------------------------ *)
(** ** Dictionaries keyed by strings *)

Module PyDict.

Definition dict (V : Type) : Type := list (string * V).

Section Operations.
Context {V : Type}.

Definition keys (d : dict V) : list string := map fst d.
Definition values (d : dict V) : list V := map snd d.
Definition items (d : dict V) : list (string * V) := d.

(** [d.get(k, default)] *)
Fixpoint get (d : dict V) (k : string) (default : V) : V :=
  match d with
  | [] => default
  | (k', v) :: d' => if String.eqb k' k then v else get d' k default
  end.

(** [d[k] = v]: an existing key keeps its place, a new key goes last. *)
Fixpoint setitem (d : dict V) (k : string) (v : V) : dict V :=
  match d with
  | [] => [(k, v)]
  | (k', v') :: d' =>
      if String.eqb k' k then (k', v) :: d'
      else (k', v') :: setitem d' k v
  end.

(** [dict(pairs)] and [{k: v for k, v in pairs}]. *)
Definition of_pairs (pairs : list (string * V)) : dict V :=
  fold_left (fun d kv => setitem d (fst kv) (snd kv)) pairs [].

(** The representation invariant: no key is bound twice. *)
Fixpoint unique_keys (d : dict V) : bool :=
  match d with
  | [] => true
  | (k, _) :: d' => negb (str_in k (keys d')) && unique_keys d'
  end.

End Operations.

End PyDict.

(* ------------------------------------------------------------------ *)
(** ** JobId and JobStatus *)

Definition JobId : Type := string.

Module JobStatus.

Inductive t : Type := QUEUED | RUNNING | COMPLETED | FAILED | CANCELLED.

Definition eqb (a b : t) : bool :=
  match a, b with
  | QUEUED, QUEUED | RUNNING, RUNNING | COMPLETED, COMPLETED
  | FAILED, FAILED | CANCELLED, CANCELLED => true
  | _, _ => false
  end.

(** [x in (a, b, ...)] on a tuple of statuses. *)
Definition status_in (x : t) (xs : list t) : bool := existsb (eqb x) xs.

Definition is_terminal (self : t) : bool :=
  status_in self [COMPLETED; FAILED; CANCELLED].

Definition is_pending (self : t) : bool :=
  status_in self [QUEUED; RUNNING].

Definition is_success (self : t) : bool := eqb self COMPLETED.

End JobStatus.

(* ------------------------------------------------------------------ *)
(** ** GateSet *)

Module GateSet.

Record t : Type := mk {
  single_qubit : list string;
  two_qubit : list string;
  three_qubit : list string;
  native : list string
}.

Definition contains (self : t) (gate : string) : bool :=
  str_in gate (single_qubit self) || str_in gate (two_qubit self)
  || str_in gate (three_qubit self).

Definition is_native (self : t) (gate : string) : bool :=
  match native self with
  | [] => contains self gate
  | _ :: _ => str_in gate (native self)
  end.

Definition iqm : t :=
  {| single_qubit := ["prx"];
     two_qubit := ["cz"];
     three_qubit := [];
     native := ["prx"; "cz"] |}.

Definition ibm_eagle : t :=
  {| single_qubit := ["rz"; "sx"; "x"; "id"];
     two_qubit := ["ecr"];
     three_qubit := [];
     native := ["rz"; "sx"; "x"; "ecr"] |}.

Definition ibm_heron : t :=
  {| single_qubit := ["rz"; "sx"; "x"; "id"; "rx"; "h"];
     two_qubit := ["cz"; "rzz"];
     three_qubit := [];
     native := ["rz"; "sx"; "x"; "cz"; "id"; "rx"; "h"; "rzz"] |}.

Definition universal : t :=
  {| single_qubit :=
       ["id"; "x"; "y"; "z"; "h"; "s"; "sdg"; "t"; "tdg";
        "sx"; "sxdg"; "rx"; "ry"; "rz"; "p"; "u"; "prx"];
     two_qubit :=
       ["cx"; "cy"; "cz"; "ch"; "swap"; "iswap";
        "crx"; "cry"; "crz"; "cp"; "rxx"; "ryy"; "rzz"];
     three_qubit := ["ccx"; "cswap"];
     native := [] |}.

Definition rigetti : t :=
  {| single_qubit := ["rx"; "rz"];
     two_qubit := ["cz"];
     three_qubit := [];
     native := ["rx"; "rz"; "cz"] |}.

Definition ionq : t :=
  {| single_qubit := ["rx"; "ry"; "rz"];
     two_qubit := ["xx"];
     three_qubit := [];
     native := ["rx"; "ry"; "rz"; "xx"] |}.

Definition neutral_atom : t :=
  {| single_qubit := ["rz"; "rx"; "ry"];
     two_qubit := ["cz"];
     three_qubit := [];
     native := ["rz"; "rx"; "ry"; "cz"] |}.

End GateSet.

(* ------------------------------------------------------------------ *)
(** ** Topology *)

Inductive TopologyKind : Type :=
| FULLY_CONNECTED | LINEAR | STAR | GRID | HEAVY_HEX | CUSTOM | NEUTRAL_ATOM.

Module Topology.

Record t : Type := mk {
  kind : TopologyKind;
  edges : list (Z * Z)
}.

Definition is_connected (self : t) (q1 q2 : Z) : bool :=
  existsb
    (fun e => let '(a, b) := e in
              ((a =? q1) && (b =? q2)) || ((a =? q2) && (b =? q1)))
    (edges self).

Definition linear (n : Z) : t :=
  {| kind := LINEAR;
     edges := map (fun i => (i, i + 1)) (range (n - 1)) |}.

Definition star (n : Z) : t :=
  {| kind := STAR;
     edges := map (fun i => (0, i)) (range_from 1 n) |}.

Definition full (n : Z) : t :=
  {| kind := FULLY_CONNECTED;
     edges :=
       flat_map
         (fun i => map (fun j => (i, j)) (range_from (i + 1) n))
         (range n) |}.

(** The edges one cell [(r, c)] of the grid appends: right, then down. *)
Definition grid_cell (rows cols r c : Z) : list (Z * Z) :=
  let idx := r * cols + c in
  (if c + 1 <? cols then [(idx, idx + 1)] else [])
  ++ (if r + 1 <? rows then [(idx, idx + cols)] else []).

Definition grid (rows cols : Z) : t :=
  {| kind := GRID;
     edges :=
       flat_map
         (fun r => flat_map (fun c => grid_cell rows cols r c) (range cols))
         (range rows) |}.

Definition custom (edges : list (Z * Z)) : t :=
  {| kind := CUSTOM; edges := edges |}.

(** The index of the node in row [r] and column [c] of a grid. *)
Definition grid_index (cols r c : Z) : Z := r * cols + c.

(** [q2] is the right or the down neighbour of [q1] in the grid: [q1] is
    a node [(r, c)] and [q2] is [(r, c + 1)] or [(r + 1, c)], itself a
    node of the grid. *)
Definition right_or_down (rows cols q1 q2 : Z) : Prop :=
  exists r c, 0 <= r < rows /\ 0 <= c < cols
    /\ q1 = grid_index cols r c
    /\ ((c + 1 < cols /\ q2 = grid_index cols r (c + 1))
        \/ (r + 1 < rows /\ q2 = grid_index cols (r + 1) c)).

End Topology.

(* ------------------------------------------------------------------ *)
(** ** ValidationResult *)

Module ValidationResult.

Record t : Type := mk {
  is_valid : bool;
  reasons : list string;
  requires_transpilation : bool;
  transpilation_details : option string
}.

Definition valid : t :=
  {| is_valid := true; reasons := [];
     requires_transpilation := false; transpilation_details := None |}.

Definition invalid (reasons : list string) : t :=
  {| is_valid := false; reasons := reasons;
     requires_transpilation := false; transpilation_details := None |}.

Definition needs_transpilation (details : string) : t :=
  {| is_valid := false; reasons := [];
     requires_transpilation := true;
     transpilation_details := Some details |}.

End ValidationResult.

(* ------------------------------------------------------------------ *)
(** ** Counts *)

Module Counts.

(** The dataclass has the single field [_counts]. Methods that mutate
    [self] return the updated object. *)
Record t : Type := mk { _counts : PyDict.dict Z }.

Definition empty : t := {| _counts := [] |}.

Definition insert (self : t) (bitstring : string) (count : Z) : t :=
  {| _counts :=
       PyDict.setitem (_counts self) bitstring
         (PyDict.get (_counts self) bitstring 0 + count) |}.

Definition get (self : t) (bitstring : string) : Z :=
  PyDict.get (_counts self) bitstring 0.

Definition total_shots (self : t) : Z :=
  sum (PyDict.values (_counts self)).

(** [max(xs, key=lambda x: x[1])] on a non-empty sequence, [best] being
    the maximum so far: a later item replaces it only when its key is
    strictly greater. *)
Fixpoint max_by_count (best : string * Z) (rest : list (string * Z))
  : string * Z :=
  match rest with
  | [] => best
  | x :: rest' =>
      max_by_count (if snd x >? snd best then x else best) rest'
  end.

Definition most_frequent (self : t) : option (string * Z) :=
  match PyDict.items (_counts self) with
  | [] => None
  | x :: rest => Some (max_by_count x rest)
  end.

Definition probabilities (self : t) : Outcome (PyDict.dict Q) :=
  let total := total_shots self in
  if total =? 0 then Returns []
  else
    outcome_bind
      (outcome_map
         (fun kv => outcome_bind (true_div (snd kv) total)
                      (fun p => Returns (fst kv, p)))
         (PyDict.items (_counts self)))
      (fun pairs => Returns (PyDict.of_pairs pairs)).

Definition items (self : t) : list (string * Z) :=
  PyDict.items (_counts self).

Definition len (self : t) : Z := Z.of_nat (List.length (_counts self)).

Definition bool (self : t) : Datatypes.bool :=
  match _counts self with [] => false | _ :: _ => true end.

Definition from_dict (d : PyDict.dict Z) : t :=
  {| _counts := PyDict.of_pairs (PyDict.items d) |}.

(** A [Counts] object holds a dictionary: every bitstring is bound once. *)
Definition well_formed (self : t) : Prop :=
  PyDict.unique_keys (_counts self) = true.

End Counts.

(* ------------------------------------------------------------------ *)
(** ** ExecutionResult *)

Module ExecutionResult.

(** [metadata] is an untyped dictionary the module never inspects; it is
    kept as a list of key and value texts. *)
Record t : Type := mk {
  counts : Counts.t;
  shots : Z;
  execution_time_ms : option Z;
  metadata : option (list (string * string))
}.

Definition probabilities (self : t) : Outcome (PyDict.dict Q) :=
  Counts.probabilities (counts self).

Definition most_frequent (self : t) : Outcome (option (string * Q)) :=
  let total := Counts.total_shots (counts self) in
  if total =? 0 then Returns None
  else
    match Counts.most_frequent (counts self) with
    | None => Returns None
    | Some (bitstring, count) =>
        outcome_bind (true_div count total)
          (fun p => Returns (Some (bitstring, p)))
    end.

End ExecutionResult.

(* ------------------------------------------------------------------ *)
(** ** Backend and the default wait loop *)

Module Backend.

(** The calls a coroutine awaits, each with what it produced. *)
Inductive Call : Type :=
| status_call (job_id : JobId) (r : Outcome JobStatus.t)
| result_call (job_id : JobId) (r : Outcome ExecutionResult.t)
| sleep_call (seconds : Q).

(** The two abstract methods [wait] is built from. A backend owns a world
    state (its own bookkeeping and the remote service); each awaited
    method returns or raises, and moves the world on. *)
Record t (World : Type) : Type := mk {
  status : JobId -> World -> Outcome JobStatus.t * World;
  result : JobId -> World -> Outcome ExecutionResult.t * World
}.

Arguments status {World} self job_id w : rename.
Arguments result {World} self job_id w : rename.

Section Coroutines.
Context {World : Type}.

(** An [async def] body: from a world to an outcome, the world it
    leaves, and the calls it awaited, oldest first. *)
Definition Coroutine (A : Type) : Type :=
  World -> Outcome A * World * list Call.

Definition ret {A : Type} (v : A) : Coroutine A :=
  fun w => (Returns v, w, []).

Definition raise {A : Type} (e : Exception) : Coroutine A :=
  fun w => (Raises e, w, []).

Definition bind {A B : Type} (m : Coroutine A) (f : A -> Coroutine B)
  : Coroutine B :=
  fun w =>
    let '(r, w1, t1) := m w in
    match r with
    | Returns v => let '(r2, w2, t2) := f v w1 in (r2, w2, t1 ++ t2)
    | Raises e => (Raises e, w1, t1)
    end.

Variable self : t World.

(** What [asyncio.sleep(seconds)] lets happen to the world meanwhile. *)
Variable asyncio_sleep : Q -> World -> World.

Definition await_status (job_id : JobId) : Coroutine JobStatus.t :=
  fun w =>
    let '(r, w') := status self job_id w in
    (r, w', [status_call job_id r]).

Definition await_result (job_id : JobId) : Coroutine ExecutionResult.t :=
  fun w =>
    let '(r, w') := result self job_id w in
    (r, w', [result_call job_id r]).

Definition await_sleep (seconds : Q) : Coroutine unit :=
  fun w => (Returns tt, asyncio_sleep seconds w, [sleep_call seconds]).

Notation "x <- m ;; k" := (bind m (fun x => k))
  (at level 100, m at next level, right associativity).
Notation "m ;; k" := (bind m (fun _ => k))
  (at level 100, right associativity).

(** [for _ in range(polls_left): ...] followed by the final [raise]. *)
Fixpoint wait_loop (polls_left : nat) (job_id : JobId)
  : Coroutine ExecutionResult.t :=
  match polls_left with
  | O => raise (TimeoutError ("Timeout waiting for job " ++ job_id))
  | S polls_left' =>
      s <- await_status job_id ;;
      match s with
      | JobStatus.COMPLETED => await_result job_id
      | JobStatus.FAILED =>
          raise (JobFailedError ("Job " ++ job_id ++ " failed"))
      | JobStatus.CANCELLED =>
          raise (JobCancelledError ("Job " ++ job_id ++ " cancelled"))
      | JobStatus.QUEUED | JobStatus.RUNNING =>
          await_sleep (1 # 2) ;;
          wait_loop polls_left' job_id
      end
  end.

Definition wait (job_id : JobId) : Coroutine ExecutionResult.t :=
  wait_loop 600 job_id.

End Coroutines.

(** *** Reading a run of [wait] *)

Definition Run (World : Type) : Type :=
  (Outcome ExecutionResult.t * World * list Call)%type.

Definition outcome {World : Type} (run : Run World)
  : Outcome ExecutionResult.t := fst (fst run).

Definition trace {World : Type} (run : Run World) : list Call := snd run.

(** What the polls of [status] produced, in order. *)
Fixpoint polls (tr : list Call) : list (Outcome JobStatus.t) :=
  match tr with
  | [] => []
  | status_call _ r :: tr' => r :: polls tr'
  | _ :: tr' => polls tr'
  end.

(** Every [status] and [result] call of the trace returned normally. *)
Definition call_returned (c : Call) : bool :=
  match c with
  | status_call _ (Raises _) | result_call _ (Raises _) => false
  | _ => true
  end.

Definition calls_returned (tr : list Call) : bool :=
  forallb call_returned tr.

Definition is_result_call (c : Call) : bool :=
  match c with result_call _ _ => true | _ => false end.

(** A poll that returned QUEUED or RUNNING. *)
Definition pending_poll (r : Outcome JobStatus.t) : Prop :=
  r = Returns JobStatus.QUEUED \/ r = Returns JobStatus.RUNNING.

(** Some poll among the first [n] returns COMPLETED before any poll
    returns FAILED or CANCELLED. *)
Definition completed_first_within (n : nat)
  (ps : list (Outcome JobStatus.t)) : Prop :=
  exists k, (k < n)%nat
    /\ nth_error ps k = Some (Returns JobStatus.COMPLETED)
    /\ forall i, (i < k)%nat ->
         nth_error ps i <> Some (Returns JobStatus.FAILED)
         /\ nth_error ps i <> Some (Returns JobStatus.CANCELLED).

(** The first terminal status observed among the first [n] polls is [s]. *)
Definition first_terminal_within (n : nat) (s : JobStatus.t)
  (ps : list (Outcome JobStatus.t)) : Prop :=
  JobStatus.is_terminal s = true
  /\ exists k, (k < n)%nat
    /\ nth_error ps k = Some (Returns s)
    /\ forall i s', (i < k)%nat -> nth_error ps i = Some (Returns s') ->
         JobStatus.is_terminal s' = false.

(** The behaviour of [wait] in the words of the contract, for a poll
    limit [n], read off the outcome and the trace of a run: it returns
    the value of [result] exactly when COMPLETED comes first; it fails
    with JobFailed (JobCancelled) exactly when the first terminal status
    is FAILED (CANCELLED); and when every poll returned a non-terminal
    status it fails with Timeout after exactly [n] polls. *)
Definition wait_contract_within (n : nat) (job_id : JobId)
  (out : Outcome ExecutionResult.t) (tr : list Call) : Prop :=
  let ps := polls tr in
  ((exists v, out = Returns v /\ In (result_call job_id (Returns v)) tr)
   <-> completed_first_within n ps)
  /\ ((exists msg, out = Raises (JobFailedError msg))
      <-> first_terminal_within n JobStatus.FAILED ps)
  /\ ((exists msg, out = Raises (JobCancelledError msg))
      <-> first_terminal_within n JobStatus.CANCELLED ps)
  /\ (Forall pending_poll ps ->
      (exists msg, out = Raises (TimeoutError msg))
      /\ List.length ps = n).

Definition wait_contract {World : Type} (job_id : JobId) (run : Run World)
  : Prop :=
  wait_contract_within 600 job_id (outcome run) (trace run).

(** The runs the loop can take with [n] polls left, as traces with their
    outcomes: a pending poll and a sleep followed by a run with one poll
    less, or one of the ways the loop ends. *)
Inductive wait_run (job_id : JobId)
  : nat -> list Call -> Outcome ExecutionResult.t -> Prop :=
| run_timeout :
    wait_run job_id 0 []
      (Raises (TimeoutError ("Timeout waiting for job " ++ job_id)))
| run_pending n s tr out :
    JobStatus.is_pending s = true ->
    wait_run job_id n tr out ->
    wait_run job_id (S n)
      (status_call job_id (Returns s) :: sleep_call (1 # 2) :: tr) out
| run_completed n r :
    wait_run job_id (S n)
      [status_call job_id (Returns JobStatus.COMPLETED);
       result_call job_id r] r
| run_failed n :
    wait_run job_id (S n) [status_call job_id (Returns JobStatus.FAILED)]
      (Raises (JobFailedError ("Job " ++ job_id ++ " failed")))
| run_cancelled n :
    wait_run job_id (S n)
      [status_call job_id (Returns JobStatus.CANCELLED)]
      (Raises (JobCancelledError ("Job " ++ job_id ++ " cancelled")))
| run_status_raised n e :
    wait_run job_id (S n) [status_call job_id (Raises e)] (Raises e).

(** The world in which poll number [k] (from 0) is made, when every
    earlier poll was followed by the half-second sleep. *)
Fixpoint world_at_poll {World : Type} (self : t World)
  (asyncio_sleep : Q -> World -> World) (job_id : JobId) (k : nat)
  (w : World) : World :=
  match k with
  | O => w
  | S k' =>
      world_at_poll self asyncio_sleep job_id k'
        (asyncio_sleep (1 # 2) (snd (status self job_id w)))
  end.

End Backend.

(* ------------------------------------------------------------------ *)
(** ** Concrete backends and values used as test inputs *)

Module Samples.

Definition mixed_counts : Counts.t :=
  Counts.from_dict [("00", 3); ("01", 5); ("10", 5); ("11", 2)].

Definition sample_result : ExecutionResult.t :=
  {| ExecutionResult.counts := mixed_counts;
     ExecutionResult.shots := 15;
     ExecutionResult.execution_time_ms := Some 12;
     ExecutionResult.metadata := None |}.

(** A world that only counts the sleeps taken so far. *)
Definition tick (_ : Q) (w : nat) : nat := S w.

(** QUEUED for the first [queued] sleeps, RUNNING until [ready] sleeps
    have passed, then the terminal status [final]. *)
Definition timed_backend (queued ready : nat) (final : JobStatus.t)
  : Backend.t nat :=
  {| Backend.status := fun _ w =>
       (Returns (if Nat.ltb w queued then JobStatus.QUEUED
                 else if Nat.ltb w ready then JobStatus.RUNNING
                 else final), w);
     Backend.result := fun _ w => (Returns sample_result, w) |}.

(** The job is COMPLETED, but fetching its result fails. *)
Definition broken_result_backend : Backend.t unit :=
  {| Backend.status := fun _ w => (Returns JobStatus.COMPLETED, w);
     Backend.result := fun job_id w =>
       (Raises (JobFailedError ("Job " ++ job_id ++ " has no result")), w) |}.

(** [status] does not know the job. *)
Definition forgetful_backend : Backend.t unit :=
  {| Backend.status := fun job_id w =>
       (Raises (JobNotFoundError job_id), w);
     Backend.result := fun job_id w =>
       (Raises (JobNotFoundError job_id), w) |}.

Definition no_sleep (_ : Q) (w : unit) : unit := w.

(** Runs of [wait] for the job "job-7". *)
Definition completed_run : Backend.Run nat :=
  Backend.wait (timed_backend 3 5 JobStatus.COMPLETED) tick "job-7" 0%nat.

Definition failed_run : Backend.Run nat :=
  Backend.wait (timed_backend 1 2 JobStatus.FAILED) tick "job-7" 0%nat.

Definition cancelled_run : Backend.Run nat :=
  Backend.wait (timed_backend 1 1 JobStatus.CANCELLED) tick "job-7" 0%nat.

Definition stalled_run : Backend.Run nat :=
  Backend.wait (timed_backend 200 600 JobStatus.COMPLETED) tick "job-7"
    0%nat.

Definition just_in_time_run : Backend.Run nat :=
  Backend.wait (timed_backend 200 599 JobStatus.COMPLETED) tick "job-7"
    0%nat.

Definition broken_result_run : Backend.Run unit :=
  Backend.wait broken_result_backend no_sleep "job-7" tt.

Definition forgetful_run : Backend.Run unit :=
  Backend.wait forgetful_backend no_sleep "job-7" tt.

End Samples.

(* ------------------------------------------------------------------ *)
(** ** NoiseProfile and Capabilities *)

Module NoiseProfile.

(** Every field is a float or [None]; the module stores these figures and
    never computes with them, so a rational stands for each. *)
Record t : Type := mk {
  t1 : option Q;
  t2 : option Q;
  single_qubit_fidelity : option Q;
  two_qubit_fidelity : option Q;
  readout_fidelity : option Q;
  gate_time : option Q
}.

End NoiseProfile.

Module Capabilities.

Record t : Type := mk {
  name : string;
  num_qubits : Z;
  gate_set : GateSet.t;
  topology : Topology.t;
  max_shots : Z;
  is_simulator : bool;
  features : list string;
  noise_profile : option NoiseProfile.t
}.

Definition simulator (num_qubits : Z) : t :=
  {| name := "simulator";
     num_qubits := num_qubits;
     gate_set := GateSet.universal;
     topology := Topology.full num_qubits;
     max_shots := 100000;
     is_simulator := true;
     features := ["statevector"; "unitary"];
     noise_profile := None |}.

Definition iqm (name : string) (num_qubits : Z) : t :=
  {| name := name;
     num_qubits := num_qubits;
     gate_set := GateSet.iqm;
     topology := Topology.star num_qubits;
     max_shots := 20000;
     is_simulator := false;
     features := [];
     noise_profile := None |}.

End Capabilities.

(* ------------------------------------------------------------------ *)
(** ** Counts and the float range *)

Module CountsRange.

(** No stored count is negative. *)
Definition non_negative (c : Counts.t) : bool :=
  forallb (fun kv => 0 <=? snd kv) (Counts.items c).

(** Every stored count, divided by the total, fits a float. *)
Definition in_float_range (c : Counts.t) : bool :=
  forallb (fun kv => negb (float_overflows (snd kv) (Counts.total_shots c)))
    (Counts.items c).

End CountsRange.

(* ------------------------------------------------------------------ *)
(** ** More readings of a run of [wait] *)

Module Trace.

(** The world a run leaves behind. *)
Definition final_world {World : Type} (run : Backend.Run World) : World :=
  snd (fst run).

(** The durations of the sleeps of a trace, in order. *)
Fixpoint sleeps (tr : list Backend.Call) : list Q :=
  match tr with
  | [] => []
  | Backend.sleep_call seconds :: tr' => seconds :: sleeps tr'
  | _ :: tr' => sleeps tr'
  end.

(** The job a call is about; a sleep is about none. *)
Definition call_job (c : Backend.Call) : option JobId :=
  match c with
  | Backend.status_call job_id _ => Some job_id
  | Backend.result_call job_id _ => Some job_id
  | Backend.sleep_call _ => None
  end.

(** A poll that returned QUEUED or RUNNING, as a test. *)
Definition answers_pending (r : Outcome JobStatus.t) : bool :=
  match r with
  | Returns s => JobStatus.is_pending s
  | Raises _ => false
  end.

(** What [status] does at poll number [k] of the schedule that starts in
    [w]: its answer, and the world it leaves. *)
Definition scheduled_poll {World : Type} (self : Backend.t World)
  (asyncio_sleep : Q -> World -> World) (job_id : JobId) (w : World)
  (k : nat) : Outcome JobStatus.t * World :=
  Backend.status self job_id
    (Backend.world_at_poll self asyncio_sleep job_id k w).

(** The first [k] polls of the schedule all answer QUEUED or RUNNING. *)
Definition pending_until {World : Type} (self : Backend.t World)
  (asyncio_sleep : Q -> World -> World) (job_id : JobId) (w : World)
  (k : nat) : bool :=
  forallb
    (fun i => answers_pending
                (fst (scheduled_poll self asyncio_sleep job_id w i)))
    (seq 0 k).

End Trace.

Module Presets.

(** The presets of [GateSet], in the order of the source. *)
Definition gate_sets : list GateSet.t :=
  [GateSet.iqm; GateSet.ibm_eagle; GateSet.ibm_heron; GateSet.universal;
   GateSet.rigetti; GateSet.ionq; GateSet.neutral_atom].

End Presets.

(* ------------------------------------------------------------------ *)
(** ** More test inputs *)

Module MoreSamples.

(** COMPLETED from the fourth poll on, with a result that depends on the
    world in which it is fetched. *)
Definition counting_backend : Backend.t nat :=
  {| Backend.status := fun _ w =>
       (Returns (if Nat.ltb w 3 then JobStatus.RUNNING
                 else JobStatus.COMPLETED), S w);
     Backend.result := fun _ w =>
       (Returns {| ExecutionResult.counts := Counts.empty;
                   ExecutionResult.shots := Z.of_nat w;
                   ExecutionResult.execution_time_ms := None;
                   ExecutionResult.metadata := None |}, w + 100)%nat |}.

Definition keep (_ : Q) (w : nat) : nat := w.

(** [status] loses the connection at the third poll. *)
Definition flaky_backend : Backend.t nat :=
  {| Backend.status := fun _ w =>
       (if Nat.eqb w 2
        then Raises (BackendUnavailableError "connection lost")
        else Returns JobStatus.QUEUED, w);
     Backend.result := fun _ w => (Returns Samples.sample_result, w) |}.

Definition tied_counts : Counts.t :=
  Counts.from_dict [("00", 3); ("01", 5); ("10", 5); ("11", 2)].

Definition cancelling_counts : Counts.t :=
  Counts.from_dict [("0", 4); ("1", -4)].

(** Counts of opposite sign that add up to 1. *)
Definition overflowing_counts : Counts.t :=
  Counts.from_dict [("a", 2 ^ 1024); ("b", 1 - 2 ^ 1024)].

Definition overflowing_result : ExecutionResult.t :=
  {| ExecutionResult.counts := overflowing_counts;
     ExecutionResult.shots := 1;
     ExecutionResult.execution_time_ms := None;
     ExecutionResult.metadata := None |}.

End MoreSamples.

(* ================================================================== *)
(** * Properties *)

(** ** Membership and equality tests *)

Lemma str_in_In (x : string) (xs : list string) :
  str_in x xs = true <-> In x xs.
Proof.
  unfold str_in. rewrite existsb_exists. split.
  - intros [y [Hy Heq]]. apply String.eqb_eq in Heq. now subst.
  - intros Hx. exists x. split; [assumption | apply String.eqb_refl].
Qed.

Lemma str_in_false (x : string) (xs : list string) :
  str_in x xs = false <-> ~ In x xs.
Proof.
  rewrite <- str_in_In. now destruct (str_in x xs).
Qed.

(** ** JobStatus *)

(** C2: [is_terminal] holds exactly for COMPLETED, FAILED and CANCELLED,
    [is_pending] exactly for QUEUED and RUNNING, and [is_success] exactly
    for COMPLETED. *)
Theorem job_status_predicates (s : JobStatus.t) :
  (JobStatus.is_terminal s = true
   <-> s = JobStatus.COMPLETED \/ s = JobStatus.FAILED
       \/ s = JobStatus.CANCELLED)
  /\ (JobStatus.is_pending s = true
      <-> s = JobStatus.QUEUED \/ s = JobStatus.RUNNING)
  /\ (JobStatus.is_success s = true <-> s = JobStatus.COMPLETED).
Proof.
  destruct s; cbn; repeat split; intros H;
    solve [ reflexivity | discriminate
          | repeat (destruct H as [H | H]; try discriminate)
          | auto ].
Qed.

Lemma terminal_or_pending (s : JobStatus.t) :
  JobStatus.is_terminal s = negb (JobStatus.is_pending s).
Proof. now destruct s. Qed.

(** ** GateSet *)

(** C5: [contains] is membership in one of the three arity buckets;
    [is_native] is membership in [native] when that list is non-empty and
    [contains] when it is empty; "cz" is native for the IQM preset, and for
    the universal preset [is_native] agrees with [contains], which holds. *)
Theorem gate_set_membership (g : GateSet.t) (s : string) :
  (GateSet.contains g s = true
   <-> In s (GateSet.single_qubit g) \/ In s (GateSet.two_qubit g)
       \/ In s (GateSet.three_qubit g))
  /\ (GateSet.native g <> [] ->
      GateSet.is_native g s = str_in s (GateSet.native g)
      /\ (GateSet.is_native g s = true <-> In s (GateSet.native g)))
  /\ (GateSet.native g = [] ->
      GateSet.is_native g s = GateSet.contains g s)
  /\ GateSet.is_native GateSet.iqm "cz" = true
  /\ GateSet.is_native GateSet.universal "cz"
     = GateSet.contains GateSet.universal "cz"
  /\ GateSet.contains GateSet.universal "cz" = true.
Proof.
  split; [| split; [| split; [| repeat split]]].
  - unfold GateSet.contains.
    rewrite !orb_true_iff, !str_in_In. tauto.
  - intros Hne. unfold GateSet.is_native.
    destruct (GateSet.native g) as [| x xs] eqn:E; [contradiction |].
    split; [reflexivity | apply str_in_In].
  - intros He. unfold GateSet.is_native. now rewrite He.
Qed.

(** ** ValidationResult *)

(** C9: [needs_transpilation x] is not valid, requires transpilation and
    carries [x] as its details. *)
Theorem needs_transpilation_fields (x : string) :
  let v := ValidationResult.needs_transpilation x in
  ValidationResult.is_valid v = false
  /\ ValidationResult.requires_transpilation v = true
  /\ ValidationResult.transpilation_details v = Some x.
Proof. cbn. repeat split. Qed.

(** ** Topology *)

Lemma edge_test_sym (q1 q2 : Z) (e : Z * Z) :
  (let '(a, b) := e in ((a =? q1) && (b =? q2)) || ((a =? q2) && (b =? q1)))
  = (let '(a, b) := e in ((a =? q2) && (b =? q1)) || ((a =? q1) && (b =? q2))).
Proof. destruct e as [a b]. apply orb_comm. Qed.

(** C7: connectivity is symmetric, for every topology and pair of qubits. *)
Theorem is_connected_sym (t : Topology.t) (a b : Z) :
  Topology.is_connected t a b = Topology.is_connected t b a.
Proof.
  unfold Topology.is_connected.
  induction (Topology.edges t) as [| e es IH]; [reflexivity |].
  cbn [existsb]. rewrite IH. f_equal. apply edge_test_sym.
Qed.

Lemma range_In (n x : Z) : In x (range n) <-> 0 <= x < n.
Proof.
  unfold range. rewrite in_map_iff. split.
  - intros [k [Hk Hin]]. apply in_seq in Hin. lia.
  - intros Hx. exists (Z.to_nat x). rewrite in_seq. lia.
Qed.

Lemma is_connected_edges (t : Topology.t) (q1 q2 : Z) :
  Topology.is_connected t q1 q2 = true
  <-> In (q1, q2) (Topology.edges t) \/ In (q2, q1) (Topology.edges t).
Proof.
  unfold Topology.is_connected. rewrite existsb_exists. split.
  - intros [[a b] [Hin Htest]].
    apply orb_true_iff in Htest.
    destruct Htest as [H | H]; apply andb_true_iff in H;
      destruct H as [Ha Hb]; apply Z.eqb_eq in Ha, Hb; subst; auto.
  - intros [Hin | Hin]; eexists; (split; [exact Hin |]); cbn;
      rewrite !Z.eqb_refl; cbn; auto using orb_true_r.
Qed.

Lemma grid_cell_In (rows cols r c a b : Z) :
  In (a, b) (Topology.grid_cell rows cols r c)
  <-> a = r * cols + c
      /\ ((c + 1 < cols /\ b = a + 1) \/ (r + 1 < rows /\ b = a + cols)).
Proof.
  unfold Topology.grid_cell. rewrite in_app_iff.
  destruct (Z.ltb_spec (c + 1) cols), (Z.ltb_spec (r + 1) rows); cbn;
    split; intros Hin;
    repeat match goal with
           | H : _ \/ _ |- _ => destruct H
           | H : _ /\ _ |- _ => destruct H
           | H : (_, _) = (_, _) |- _ => injection H as <- <-
           | H : False |- _ => contradiction
           end; subst; try lia; auto 6.
Qed.

Lemma grid_edges_In (rows cols a b : Z) :
  In (a, b) (Topology.edges (Topology.grid rows cols))
  <-> Topology.right_or_down rows cols a b.
Proof.
  unfold Topology.right_or_down, Topology.grid_index. cbn [Topology.grid Topology.edges].
  rewrite in_flat_map. split.
  - intros [r [Hr Hin]]. apply in_flat_map in Hin.
    destruct Hin as [c [Hc Hin]].
    apply range_In in Hr, Hc. apply grid_cell_In in Hin.
    exists r, c. destruct Hin as [-> [[? ->] | [? ->]]];
      [ repeat split; try lia; left; split; lia
      | repeat split; try lia; right; split; lia ].
  - intros [r [c [Hr [Hc [-> Hn]]]]].
    exists r. split; [now apply range_In |].
    apply in_flat_map. exists c. split; [now apply range_In |].
    apply grid_cell_In. split; [reflexivity |].
    destruct Hn as [[? ->] | [? ->]]; [left | right]; split; lia.
Qed.

Lemma grid_connected_iff (rows cols q1 q2 : Z) :
  Topology.is_connected (Topology.grid rows cols) q1 q2 = true
  <-> Topology.right_or_down rows cols q1 q2
      \/ Topology.right_or_down rows cols q2 q1.
Proof. now rewrite is_connected_edges, !grid_edges_In. Qed.

(** A node index determines its row and column. *)
Lemma grid_index_inj (cols r c r' c' : Z) :
  0 <= c < cols -> 0 <= c' < cols ->
  Topology.grid_index cols r c = Topology.grid_index cols r' c' ->
  r = r' /\ c = c'.
Proof.
  unfold Topology.grid_index. intros Hc Hc' Heq.
  assert (Hr : r = r').
  { destruct (Z.lt_trichotomy r r') as [Hlt | [Heq' | Hgt]];
      [exfalso | assumption | exfalso].
    - assert (0 <= (r' - r - 1) * cols) by (apply Z.mul_nonneg_nonneg; lia).
      lia.
    - assert (0 <= (r - r' - 1) * cols) by (apply Z.mul_nonneg_nonneg; lia).
      lia. }
  subst r'. split; [reflexivity | lia].
Qed.

Ltac grid_not_connected :=
  apply not_true_is_false; intros Hconn;
  apply grid_connected_iff in Hconn;
  unfold Topology.right_or_down, Topology.grid_index in Hconn;
  destruct Hconn as [(r' & c' & Hr' & Hc' & Hq & Hn)
                    | (r' & c' & Hr' & Hc' & Hq & Hn)];
  destruct Hn as [[Hlt Hq'] | [Hlt Hq']];
  first
    [ unfold Topology.grid_index in *; nia
    | eapply grid_index_inj in Hq; [| lia | lia];
      destruct Hq; unfold Topology.grid_index in *; nia ].

(** C6: in [grid rows cols] two nodes are connected exactly when one is the
    right or the down neighbour of the other; there is no edge that wraps
    around a row or a column or from the end of a row to the start of the
    next, and no diagonal edge; in the 2 by 2 grid, 0 is connected to 1 and
    to 2 and not to 3. *)
Theorem grid_connectivity (rows cols : Z) :
  let g := Topology.grid rows cols in
  (forall q1 q2,
      Topology.is_connected g q1 q2 = true
      <-> Topology.right_or_down rows cols q1 q2
          \/ Topology.right_or_down rows cols q2 q1)
  /\ (forall r, 2 < cols ->
        Topology.is_connected g (Topology.grid_index cols r (cols - 1))
          (Topology.grid_index cols r 0) = false)
  /\ (forall c, 0 <= c < cols -> 2 < rows ->
        Topology.is_connected g (Topology.grid_index cols (rows - 1) c)
          (Topology.grid_index cols 0 c) = false)
  /\ (forall r, 1 < cols ->
        Topology.is_connected g (Topology.grid_index cols r (cols - 1))
          (Topology.grid_index cols (r + 1) 0) = false)
  /\ (forall r c, 0 <= c < cols ->
        Topology.is_connected g (Topology.grid_index cols r c)
          (Topology.grid_index cols (r + 1) (c + 1)) = false)
  /\ (forall r c, 1 <= c < cols ->
        Topology.is_connected g (Topology.grid_index cols r c)
          (Topology.grid_index cols (r + 1) (c - 1)) = false)
  /\ Topology.is_connected (Topology.grid 2 2) 0 1 = true
  /\ Topology.is_connected (Topology.grid 2 2) 0 2 = true
  /\ Topology.is_connected (Topology.grid 2 2) 0 3 = false.
Proof.
  cbv zeta. split; [| repeat split].
  - intros q1 q2. apply grid_connected_iff.
  - intros r Hcols. grid_not_connected.
  - intros c Hc Hrows. grid_not_connected.
  - intros r Hcols. grid_not_connected.
  - intros r c Hc. grid_not_connected.
  - intros r c Hc. grid_not_connected.
Qed.

(** ** Dictionaries *)

Section DictFacts.
Context {V : Type}.
Implicit Types (d : PyDict.dict V) (k : string) (v : V).

Lemma get_setitem d k v default :
  PyDict.get (PyDict.setitem d k v) k default = v.
Proof.
  induction d as [| [k' v'] d IH]; cbn.
  - now rewrite String.eqb_refl.
  - destruct (String.eqb k' k) eqn:E; cbn; rewrite E; auto.
Qed.

Lemma get_absent d k default :
  ~ In k (PyDict.keys d) -> PyDict.get d k default = default.
Proof.
  induction d as [| [k' v'] d IH]; cbn; [reflexivity |].
  intros Hn. destruct (String.eqb_spec k' k) as [-> | Hne].
  - exfalso. apply Hn. now left.
  - apply IH. intros Hin. apply Hn. now right.
Qed.

Lemma keys_setitem_In d k v k' :
  In k' (PyDict.keys (PyDict.setitem d k v))
  <-> k' = k \/ In k' (PyDict.keys d).
Proof.
  induction d as [| [k0 v0] d IH]; cbn.
  - intuition.
  - destruct (String.eqb_spec k0 k) as [-> | Hne]; cbn.
    + intuition.
    + rewrite IH. intuition.
Qed.

Lemma unique_keys_setitem d k v :
  PyDict.unique_keys d = true ->
  PyDict.unique_keys (PyDict.setitem d k v) = true.
Proof.
  induction d as [| [k0 v0] d IH]; cbn; [reflexivity |].
  intros Hu. apply andb_true_iff in Hu. destruct Hu as [Hk0 Hd].
  destruct (String.eqb_spec k0 k) as [-> | Hne]; cbn.
  - now rewrite Hk0, Hd.
  - rewrite (IH Hd), andb_true_r.
    apply negb_true_iff, str_in_false.
    apply negb_true_iff, str_in_false in Hk0.
    rewrite keys_setitem_In. intros [-> | Hin]; auto.
Qed.

Lemma setitem_fresh d k v :
  ~ In k (PyDict.keys d) -> PyDict.setitem d k v = d ++ [(k, v)].
Proof.
  induction d as [| [k0 v0] d IH]; cbn; [reflexivity |].
  intros Hn. destruct (String.eqb_spec k0 k) as [-> | Hne].
  - exfalso. apply Hn. now left.
  - f_equal. apply IH. intros Hin. apply Hn. now right.
Qed.

Lemma unique_keys_app_inv d k v acc :
  PyDict.unique_keys (acc ++ (k, v) :: d) = true ->
  ~ In k (PyDict.keys acc)
  /\ PyDict.unique_keys ((acc ++ [(k, v)]) ++ d) = true.
Proof.
  intros Hu. rewrite <- app_assoc. cbn [app]. split; [| exact Hu].
  induction acc as [| [k0 v0] acc IH]; cbn in *; [tauto |].
  apply andb_true_iff in Hu. destruct Hu as [Hk0 Hacc].
  apply negb_true_iff, str_in_false in Hk0.
  intros [-> | Hin].
  - apply Hk0. unfold PyDict.keys. rewrite map_app, in_app_iff.
    right. now left.
  - now apply IH.
Qed.

Lemma fold_setitem_unique (pairs : list (string * V)) :
  forall acc, PyDict.unique_keys (acc ++ pairs) = true ->
  fold_left (fun d kv => PyDict.setitem d (fst kv) (snd kv)) pairs acc
  = acc ++ pairs.
Proof.
  induction pairs as [| [k v] pairs IH]; intros acc Hu; cbn.
  - now rewrite app_nil_r.
  - assert (Hfresh : ~ In k (PyDict.keys acc)
                     /\ PyDict.unique_keys ((acc ++ [(k, v)]) ++ pairs)
                        = true).
    { apply unique_keys_app_inv. exact Hu. }
    destruct Hfresh as [Hfresh Hu'].
    rewrite setitem_fresh by exact Hfresh.
    rewrite IH by exact Hu'. now rewrite <- app_assoc.
Qed.

(** Copying a dictionary, or rebuilding it from its own distinct keys,
    gives the same bindings in the same order. *)
Lemma of_pairs_unique (pairs : list (string * V)) :
  PyDict.unique_keys pairs = true -> PyDict.of_pairs pairs = pairs.
Proof.
  intros Hu. unfold PyDict.of_pairs. now rewrite fold_setitem_unique.
Qed.

(** Whatever the pairs, the dictionary built from them binds each key
    once. *)
Lemma of_pairs_unique_keys (pairs : list (string * V)) :
  PyDict.unique_keys (PyDict.of_pairs pairs) = true.
Proof.
  unfold PyDict.of_pairs.
  assert (H : forall acc, PyDict.unique_keys acc = true ->
              PyDict.unique_keys
                (fold_left (fun d kv => PyDict.setitem d (fst kv) (snd kv))
                   pairs acc) = true).
  { induction pairs as [| [k v] pairs IH]; intros acc Hacc; cbn.
    - exact Hacc.
    - apply IH. now apply unique_keys_setitem. }
  now apply H.
Qed.

End DictFacts.

Lemma keys_map_snd {A B : Type} (f : string * A -> B) (d : PyDict.dict A) :
  PyDict.keys (map (fun kv => (fst kv, f kv)) d) = PyDict.keys d.
Proof.
  unfold PyDict.keys. rewrite map_map. reflexivity.
Qed.

Lemma unique_keys_map_snd {A B : Type} (f : string * A -> B)
  (d : PyDict.dict A) :
  PyDict.unique_keys (map (fun kv => (fst kv, f kv)) d)
  = PyDict.unique_keys d.
Proof.
  induction d as [| [k v] d IH]; cbn; [reflexivity |].
  rewrite IH. f_equal. f_equal.
  change (map (fun kv => (fst kv, f kv)) d)
    with (map (fun kv : string * A => (fst kv, f kv)) d).
  now rewrite (keys_map_snd f d).
Qed.

(** ** Sums *)

Lemma fold_add_shift (xs : list Z) (a : Z) :
  fold_left Z.add xs a = a + fold_left Z.add xs 0.
Proof.
  revert a. induction xs as [| x xs IH]; intros a; cbn.
  - lia.
  - rewrite IH, (IH x). lia.
Qed.

Lemma sum_cons (x : Z) (xs : list Z) : sum (x :: xs) = x + sum xs.
Proof. unfold sum. cbn. apply fold_add_shift. Qed.

Lemma sum_values_setitem (d : PyDict.dict Z) (k : string) (v : Z) :
  sum (PyDict.values (PyDict.setitem d k v))
  = sum (PyDict.values d) - PyDict.get d k 0 + v.
Proof.
  unfold PyDict.values.
  induction d as [| [k' v'] d IH]; cbn [PyDict.setitem PyDict.get map snd].
  - rewrite sum_cons. unfold sum. cbn. lia.
  - destruct (String.eqb k' k); cbn [map snd]; rewrite !sum_cons.
    + lia.
    + rewrite IH. lia.
Qed.

Lemma sum_get_keys (d : PyDict.dict Z) :
  PyDict.unique_keys d = true ->
  sum (map (fun k => PyDict.get d k 0) (PyDict.keys d))
  = sum (PyDict.values d).
Proof.
  unfold PyDict.values, PyDict.keys.
  induction d as [| [k v] d IH];
    cbn [PyDict.unique_keys PyDict.get map fst snd]; [reflexivity |].
  intros Hu. apply andb_true_iff in Hu. destruct Hu as [Hk Hd].
  apply negb_true_iff, str_in_false in Hk.
  rewrite String.eqb_refl, !sum_cons. f_equal.
  rewrite <- (IH Hd). f_equal. apply map_ext_in.
  intros k' Hin. destruct (String.eqb_spec k k') as [-> | Hne];
    [contradiction | reflexivity].
Qed.

(** ** Counts *)

Lemma get_insert (c : Counts.t) (s : string) (m : Z) :
  Counts.get (Counts.insert c s m) s = Counts.get c s + m.
Proof.
  unfold Counts.get, Counts.insert. cbn [Counts._counts]. apply get_setitem.
Qed.

Lemma total_shots_insert (c : Counts.t) (s : string) (m : Z) :
  Counts.total_shots (Counts.insert c s m) = Counts.total_shots c + m.
Proof.
  unfold Counts.total_shots, Counts.insert. cbn [Counts._counts].
  rewrite sum_values_setitem. lia.
Qed.

Lemma well_formed_empty : Counts.well_formed Counts.empty.
Proof. reflexivity. Qed.

Lemma well_formed_insert (c : Counts.t) (s : string) (m : Z) :
  Counts.well_formed c -> Counts.well_formed (Counts.insert c s m).
Proof. apply unique_keys_setitem. Qed.

Lemma well_formed_from_dict (d : PyDict.dict Z) :
  Counts.well_formed (Counts.from_dict d).
Proof. apply of_pairs_unique_keys. Qed.

Lemma total_shots_by_key (c : Counts.t) :
  Counts.well_formed c ->
  Counts.total_shots c
  = sum (map (Counts.get c) (PyDict.keys (Counts._counts c))).
Proof.
  intros Hwf. unfold Counts.total_shots. symmetry.
  now apply sum_get_keys.
Qed.

(** C3: two inserts for the same bitstring add both counts to what [get]
    returned before, and the total grows by the same amount; the total is,
    before and after, the sum over the stored bitstrings of their counts;
    on an empty [Counts], inserting 3 and then 2 for "101" gives [get] 5
    and total 5. *)
Theorem insert_additive (c : Counts.t) (s : string) (m n : Z) :
  let c' := Counts.insert (Counts.insert c s m) s n in
  Counts.get c' s = Counts.get c s + m + n
  /\ Counts.total_shots c' = Counts.total_shots c + m + n
  /\ (Counts.well_formed c ->
      Counts.total_shots c
      = sum (map (Counts.get c) (PyDict.keys (Counts._counts c)))
      /\ Counts.well_formed c'
      /\ Counts.total_shots c'
         = sum (map (Counts.get c') (PyDict.keys (Counts._counts c'))))
  /\ (let five := Counts.insert (Counts.insert Counts.empty "101" 3) "101" 2
      in Counts.get five "101" = 5 /\ Counts.total_shots five = 5).
Proof.
  intros c'. split; [| split; [| split]].
  - subst c'. rewrite !get_insert. lia.
  - subst c'. rewrite !total_shots_insert. lia.
  - intros Hwf.
    assert (Hwf' : Counts.well_formed c')
      by (subst c'; auto using well_formed_insert).
    split; [now apply total_shots_by_key |].
    split; [exact Hwf' | now apply total_shots_by_key].
  - split; reflexivity.
Qed.

Lemma insert_additive_witness :
  let c' := Counts.insert (Counts.insert Samples.mixed_counts "01" 4) "01" 7
  in Counts.well_formed Samples.mixed_counts
     /\ Counts.get c' "01" = 16
     /\ Counts.total_shots c' = 26
     /\ sum (map (Counts.get c') (PyDict.keys (Counts._counts c'))) = 26.
Proof.
  cbv zeta. split; [reflexivity |].
  pose proof (insert_additive Samples.mixed_counts "01" 4 7) as H.
  cbv zeta in H. destruct H as [Hget [Htotal [Hsum _]]].
  split; [exact Hget |]. split; [exact Htotal |].
  destruct (Hsum eq_refl) as [_ [_ Hkeys]].
  rewrite <- Hkeys. exact Htotal.
Defined.

(** ** Probabilities *)

Lemma float_overflow_bound_gt_1 : 1 < float_overflow_bound.
Proof. reflexivity. Qed.

Lemma true_div_in_range (a b : Z) :
  b <> 0 -> float_overflows a b = false ->
  true_div a b = Returns (inject_Z a / inject_Z b)%Q.
Proof.
  intros Hb Hfit. unfold true_div. rewrite Hfit.
  destruct (Z.eqb_spec b 0); [contradiction | reflexivity].
Qed.

Lemma true_div_out_of_range (a b : Z) :
  b <> 0 -> float_overflows a b = true ->
  true_div a b
  = Raises (OverflowError "integer division result too large for a float").
Proof.
  intros Hb Hover. unfold true_div. rewrite Hover.
  destruct (Z.eqb_spec b 0); [contradiction | reflexivity].
Qed.

(** The edge of the float range: the largest float is [2^1024 - 2^971],
    and a quotient half a step beyond it rounds out of the range. *)
Example true_div_at_the_bound :
  true_div (2 ^ 1024 - 2 ^ 970 - 1) 1
  = Returns (inject_Z (2 ^ 1024 - 2 ^ 970 - 1) / inject_Z 1)%Q
  /\ true_div (3 * (2 ^ 1024 - 2 ^ 970)) (-3)
     = Raises (OverflowError "integer division result too large for a float")
  /\ true_div (2 ^ 1024) (2 ^ 1024) = Returns (inject_Z (2 ^ 1024)
                                               / inject_Z (2 ^ 1024))%Q
  /\ true_div 1 0 = Raises (ZeroDivisionError "division by zero").
Proof. repeat split. Qed.

(** A quotient of magnitude at most 1 fits a float. *)
Lemma small_quotient_fits (a b : Z) :
  b <> 0 -> Z.abs a <= Z.abs b -> float_overflows a b = false.
Proof.
  intros Hb Hle. unfold float_overflows. apply Z.leb_gt.
  pose proof float_overflow_bound_gt_1 as Hbound.
  generalize dependent float_overflow_bound. intros bound Hbound.
  assert (0 < Z.abs b) by lia.
  assert (0 < (bound - 1) * Z.abs b) by (apply Z.mul_pos_pos; lia).
  lia.
Qed.

(** The loop of the dict comprehension: it returns the quotients when all
    of them fit a float, and raises OverflowError at the first that does
    not. *)
Lemma outcome_map_divide (total : Z) (d : PyDict.dict Z) :
  total <> 0 ->
  forallb (fun kv => negb (float_overflows (snd kv) total)) d = true ->
  outcome_map
    (fun kv => outcome_bind (true_div (snd kv) total)
                 (fun p => Returns (fst kv, p))) d
  = Returns
      (map (fun kv => (fst kv, (inject_Z (snd kv) / inject_Z total)%Q)) d).
Proof.
  intros Ht. induction d as [| kv d IH]; cbn [outcome_map map forallb].
  - reflexivity.
  - intros Hall. apply andb_true_iff in Hall. destruct Hall as [Hkv Hd].
    apply negb_true_iff in Hkv.
    rewrite (IH Hd), true_div_in_range by assumption. reflexivity.
Qed.

Lemma outcome_map_overflow (total : Z) (d : PyDict.dict Z) :
  total <> 0 ->
  forallb (fun kv => negb (float_overflows (snd kv) total)) d = false ->
  outcome_map
    (fun kv => outcome_bind (true_div (snd kv) total)
                 (fun p => Returns (fst kv, p))) d
  = Raises (OverflowError "integer division result too large for a float").
Proof.
  intros Ht. induction d as [| kv d IH]; cbn [outcome_map forallb].
  - discriminate.
  - intros Hall.
    destruct (float_overflows (snd kv) total) eqn:Ekv.
    + now rewrite true_div_out_of_range.
    + cbn [negb andb] in Hall.
      rewrite true_div_in_range, (IH Hall) by assumption. reflexivity.
Qed.

Lemma sum_bounds (xs : list Z) :
  (forall x, In x xs -> 0 <= x) ->
  0 <= sum xs /\ forall x, In x xs -> x <= sum xs.
Proof.
  induction xs as [| y xs IH]; intros Hpos.
  - split; [reflexivity | intros x []].
  - rewrite sum_cons.
    destruct IH as [Hsum Hle]; [intros x Hx; apply Hpos; now right |].
    pose proof (Hpos y (or_introl eq_refl)) as Hy.
    split; [lia |]. intros x [<- | Hx]; [lia |].
    specialize (Hle x Hx). lia.
Qed.

(** Counts none of which is negative are each at most the total, so every
    quotient fits a float. *)
Lemma non_negative_in_range (c : Counts.t) :
  CountsRange.non_negative c = true ->
  Counts.total_shots c <> 0 ->
  CountsRange.in_float_range c = true.
Proof.
  unfold CountsRange.non_negative, CountsRange.in_float_range.
  rewrite !forallb_forall. intros Hpos Hne kv Hin.
  apply negb_true_iff, small_quotient_fits; [exact Hne |].
  assert (Hvals : forall x, In x (PyDict.values (Counts._counts c)) -> 0 <= x).
  { intros x Hx. apply in_map_iff in Hx. destruct Hx as [kv' [<- Hin']].
    apply Z.leb_le. now apply Hpos. }
  destruct (sum_bounds _ Hvals) as [Hsum Hle].
  assert (Hkv : snd kv <= Counts.total_shots c).
  { apply Hle. apply in_map_iff. now exists kv. }
  specialize (Hpos kv Hin). apply Z.leb_le in Hpos.
  unfold Counts.total_shots in *. lia.
Qed.

(** C4, amended: [probabilities] never divides by zero. With a total of 0
    it returns the empty mapping. Otherwise, when every count divided by
    the total fits a float, it returns, binding each stored bitstring in
    order to its count divided by the total; when some quotient does not
    fit, it raises OverflowError. Counts none of which is negative always
    fit, so on them it always returns. *)
Theorem probabilities_outcome (c : Counts.t) :
  (forall msg, Counts.probabilities c <> Raises (ZeroDivisionError msg))
  /\ (Counts.total_shots c = 0 -> Counts.probabilities c = Returns [])
  /\ (Counts.total_shots c <> 0 ->
      CountsRange.in_float_range c = true ->
      exists p, Counts.probabilities c = Returns p
        /\ (Counts.well_formed c ->
            p = map (fun kv => (fst kv,
                                (inject_Z (snd kv)
                                 / inject_Z (Counts.total_shots c))%Q))
                  (Counts.items c)))
  /\ (Counts.total_shots c <> 0 ->
      CountsRange.in_float_range c = false ->
      Counts.probabilities c
      = Raises (OverflowError
                  "integer division result too large for a float"))
  /\ (CountsRange.non_negative c = true ->
      exists p, Counts.probabilities c = Returns p).
Proof.
  assert (Hzero : Counts.total_shots c = 0 ->
                  Counts.probabilities c = Returns []).
  { intros H0. unfold Counts.probabilities. cbv zeta. now rewrite H0. }
  assert (Hfit : Counts.total_shots c <> 0 ->
                 CountsRange.in_float_range c = true ->
                 exists p, Counts.probabilities c = Returns p
                   /\ (Counts.well_formed c ->
                       p = map (fun kv =>
                                  (fst kv,
                                   (inject_Z (snd kv)
                                    / inject_Z (Counts.total_shots c))%Q))
                             (Counts.items c))).
  { intros Hne Hrange. unfold Counts.probabilities. cbv zeta.
    destruct (Z.eqb_spec (Counts.total_shots c) 0) as [| _]; [contradiction |].
    rewrite outcome_map_divide by assumption. cbn [outcome_bind].
    eexists. split; [reflexivity |].
    intros Hwf. unfold PyDict.items, Counts.items.
    apply of_pairs_unique.
    rewrite (unique_keys_map_snd
               (fun kv => (inject_Z (snd kv)
                           / inject_Z (Counts.total_shots c))%Q)).
    exact Hwf. }
  assert (Hover : Counts.total_shots c <> 0 ->
                  CountsRange.in_float_range c = false ->
                  Counts.probabilities c
                  = Raises (OverflowError
                              "integer division result too large for a float")).
  { intros Hne Hrange. unfold Counts.probabilities. cbv zeta.
    destruct (Z.eqb_spec (Counts.total_shots c) 0) as [| _]; [contradiction |].
    now rewrite outcome_map_overflow by assumption. }
  split; [| split; [exact Hzero | split; [exact Hfit | split; [exact Hover |]]]].
  - intros msg Hraise.
    destruct (Z.eq_dec (Counts.total_shots c) 0) as [H0 | Hne].
    + rewrite (Hzero H0) in Hraise. discriminate Hraise.
    + destruct (CountsRange.in_float_range c) eqn:Hrange.
      * destruct (Hfit Hne eq_refl) as [p [Hp _]].
        rewrite Hp in Hraise. discriminate Hraise.
      * rewrite (Hover Hne eq_refl) in Hraise. discriminate Hraise.
  - intros Hpos.
    destruct (Z.eq_dec (Counts.total_shots c) 0) as [H0 | Hne].
    + exists []. exact (Hzero H0).
    + destruct (Hfit Hne (non_negative_in_range c Hpos Hne)) as [p [Hp _]].
      now exists p.
Qed.

Lemma probabilities_outcome_witness :
  CountsRange.non_negative Samples.mixed_counts = true
  /\ CountsRange.in_float_range Samples.mixed_counts = true
  /\ Counts.probabilities Samples.mixed_counts
     = Returns [("00", 3 # 15); ("01", 5 # 15); ("10", 5 # 15); ("11", 2 # 15)]%Q
  /\ Counts.probabilities Counts.empty = Returns [].
Proof.
  split; [reflexivity |]. split; [reflexivity |].
  destruct (probabilities_outcome Samples.mixed_counts)
    as (_ & _ & Hfit & _ & _).
  destruct (probabilities_outcome Counts.empty) as (_ & Hzero & _).
  split; [| exact (Hzero eq_refl)].
  destruct (Hfit ltac:(discriminate) eq_refl) as [p [Hp Hmap]].
  rewrite Hp. f_equal. apply Hmap. reflexivity.
Defined.

(** C4, as stated, fails on counts of opposite sign that add up to 1: the
    total is not 0, and dividing the count [2^1024] by it raises
    OverflowError, so [probabilities] does raise. *)
Lemma probabilities_raises_overflow :
  Counts.well_formed MoreSamples.overflowing_counts
  /\ Counts.total_shots MoreSamples.overflowing_counts = 1
  /\ Counts.probabilities MoreSamples.overflowing_counts
     = Raises (OverflowError "integer division result too large for a float")
  /\ ~ (exists p,
          Counts.probabilities MoreSamples.overflowing_counts = Returns p).
Proof.
  assert (Hraise : Counts.probabilities MoreSamples.overflowing_counts
                   = Raises (OverflowError
                               "integer division result too large for a float"))
    by (vm_compute; reflexivity).
  split; [reflexivity |]. split; [vm_compute; reflexivity |].
  split; [exact Hraise |].
  intros [p Hp]. rewrite Hraise in Hp. discriminate Hp.
Qed.

(** ** The most frequent outcome *)

Lemma max_by_count_spec (rest : list (string * Z)) :
  forall best,
    In (Counts.max_by_count best rest) (best :: rest)
    /\ forall x, In x (best :: rest) ->
         snd x <= snd (Counts.max_by_count best rest).
Proof.
  induction rest as [| y rest IH]; intros best; cbn [Counts.max_by_count].
  - split; [now left |]. intros x [<- | []]. lia.
  - destruct (IH (if snd y >? snd best then y else best)) as [Hin Hmax].
    split.
    + destruct Hin as [Heq | Hin]; [| now right; right].
      rewrite <- Heq. destruct (snd y >? snd best); [right |]; now left.
    + intros x Hx.
      assert (Hstep : snd best <= snd (if snd y >? snd best then y else best)
                      /\ snd y <= snd (if snd y >? snd best then y else best)).
      { destruct (Z.gtb_spec (snd y) (snd best)); lia. }
      destruct Hx as [<- | [<- | Hx]].
      * etransitivity; [apply Hstep |]. apply Hmax. now left.
      * etransitivity; [apply Hstep |]. apply Hmax. now left.
      * apply Hmax. now right.
Qed.

(** Among entries of maximal count, [max] keeps the one it met first. *)
Lemma max_by_count_first (rest : list (string * Z)) :
  forall best,
    (forall x, In x rest -> snd x <= snd best) ->
    Counts.max_by_count best rest = best.
Proof.
  induction rest as [| y rest IH]; intros best Hle; cbn [Counts.max_by_count].
  - reflexivity.
  - destruct (Z.gtb_spec (snd y) (snd best)) as [Hgt | _].
    + specialize (Hle y (or_introl eq_refl)). lia.
    + apply IH. intros x Hx. apply Hle. now right.
Qed.

Lemma sum_nil_total (c : Counts.t) :
  Counts.items c = [] -> Counts.total_shots c = 0.
Proof.
  unfold Counts.items, PyDict.items, Counts.total_shots.
  now intros ->.
Qed.

(** What [ExecutionResult.most_frequent] does with a total that is not 0:
    it divides the count of the entry [Counts.most_frequent] picks. *)
Lemma most_frequent_divides (r : ExecutionResult.t) :
  Counts.total_shots (ExecutionResult.counts r) <> 0 ->
  exists bitstring count,
    Counts.most_frequent (ExecutionResult.counts r) = Some (bitstring, count)
    /\ In (bitstring, count) (Counts.items (ExecutionResult.counts r))
    /\ (forall b n, In (b, n) (Counts.items (ExecutionResult.counts r)) ->
                    n <= count)
    /\ ExecutionResult.most_frequent r
       = outcome_bind
           (true_div count (Counts.total_shots (ExecutionResult.counts r)))
           (fun p => Returns (Some (bitstring, p))).
Proof.
  intros Hne. unfold ExecutionResult.most_frequent. cbv zeta.
  destruct (Z.eqb_spec (Counts.total_shots (ExecutionResult.counts r)) 0)
    as [| _]; [contradiction |].
  unfold Counts.most_frequent, Counts.items, PyDict.items.
  destruct (Counts._counts (ExecutionResult.counts r)) as [| x rest] eqn:E.
  - exfalso. apply Hne. unfold Counts.total_shots. now rewrite E.
  - destruct (max_by_count_spec rest x) as [Hin Hmax].
    destruct (Counts.max_by_count x rest) as [bitstring count].
    exists bitstring, count. split; [reflexivity |].
    split; [exact Hin |]. split; [| reflexivity].
    intros b n Hbn. apply (Hmax (b, n) Hbn).
Qed.

(** C8, amended: [ExecutionResult.most_frequent] returns [None] when the
    total is 0, in particular when there are no counts. Otherwise it picks
    an entry of the counts whose count no other entry exceeds; when that
    count divided by the total fits a float it returns the entry's
    bitstring with the quotient, and when it does not fit it raises
    OverflowError. On counts none of which is negative it always returns.
    Which of several maximal entries is picked is not part of the
    statement. *)
Theorem most_frequent_spec (r : ExecutionResult.t) :
  let c := ExecutionResult.counts r in
  let total := Counts.total_shots c in
  (total = 0 -> ExecutionResult.most_frequent r = Returns None)
  /\ (Counts.items c = [] -> ExecutionResult.most_frequent r = Returns None)
  /\ (total <> 0 ->
      exists bitstring count,
        In (bitstring, count) (Counts.items c)
        /\ (forall b n, In (b, n) (Counts.items c) -> n <= count)
        /\ (float_overflows count total = false ->
            ExecutionResult.most_frequent r
            = Returns (Some (bitstring,
                             (inject_Z count / inject_Z total)%Q)))
        /\ (float_overflows count total = true ->
            ExecutionResult.most_frequent r
            = Raises (OverflowError
                        "integer division result too large for a float")))
  /\ (total <> 0 -> CountsRange.non_negative c = true ->
      exists bitstring count,
        ExecutionResult.most_frequent r
        = Returns (Some (bitstring, (inject_Z count / inject_Z total)%Q))
        /\ In (bitstring, count) (Counts.items c)
        /\ forall b n, In (b, n) (Counts.items c) -> n <= count).
Proof.
  intros c total.
  assert (Hzero : total = 0 -> ExecutionResult.most_frequent r = Returns None).
  { intros H0. unfold ExecutionResult.most_frequent. fold c. fold total.
    now rewrite H0. }
  split; [exact Hzero |]. split; [| split].
  - intros Hnil. apply Hzero. now apply sum_nil_total.
  - intros Hne.
    destruct (most_frequent_divides r Hne) as (b & n & _ & Hin & Hmax & Hmf).
    fold c in Hin, Hmax, Hmf. fold total in Hmf.
    exists b, n. split; [exact Hin |]. split; [exact Hmax |]. split.
    + intros Hfit. rewrite Hmf, true_div_in_range by assumption. reflexivity.
    + intros Hover. rewrite Hmf, true_div_out_of_range by assumption.
      reflexivity.
  - intros Hne Hpos.
    destruct (most_frequent_divides r Hne) as (b & n & _ & Hin & Hmax & Hmf).
    fold c in Hin, Hmax, Hmf. fold total in Hmf.
    exists b, n. split; [| split; assumption].
    pose proof (non_negative_in_range c Hpos Hne) as Hrange.
    unfold CountsRange.in_float_range in Hrange.
    rewrite forallb_forall in Hrange.
    specialize (Hrange (b, n) Hin). apply negb_true_iff in Hrange.
    cbn [snd] in Hrange. fold total in Hrange.
    rewrite Hmf, true_div_in_range by assumption. reflexivity.
Qed.

Lemma most_frequent_spec_witness :
  CountsRange.non_negative Samples.mixed_counts = true
  /\ ExecutionResult.most_frequent Samples.sample_result
     = Returns (Some ("01", 5 # 15)%Q)
  /\ exists bitstring count,
       ExecutionResult.most_frequent Samples.sample_result
       = Returns (Some (bitstring, (inject_Z count / inject_Z 15)%Q))
       /\ In (bitstring, count) (Counts.items Samples.mixed_counts).
Proof.
  split; [reflexivity |]. split; [reflexivity |].
  destruct (most_frequent_spec Samples.sample_result) as (_ & _ & _ & H).
  destruct (H ltac:(discriminate) eq_refl) as [b [n [Hm [Hin _]]]].
  exists b, n. split; [exact Hm | exact Hin].
Defined.

(** C8, as stated, fails on counts of opposite sign that add up to 1: the
    total is not 0, yet [most_frequent] returns no pair; dividing the
    greatest count [2^1024] by the total raises OverflowError. *)
Lemma most_frequent_raises_overflow :
  Counts.total_shots (ExecutionResult.counts MoreSamples.overflowing_result)
  = 1
  /\ ExecutionResult.most_frequent MoreSamples.overflowing_result
     = Raises (OverflowError "integer division result too large for a float")
  /\ ~ (exists pair,
          ExecutionResult.most_frequent MoreSamples.overflowing_result
          = Returns (Some pair)).
Proof.
  assert (Hraise : ExecutionResult.most_frequent MoreSamples.overflowing_result
                   = Raises (OverflowError
                               "integer division result too large for a float"))
    by (vm_compute; reflexivity).
  split; [vm_compute; reflexivity |]. split; [exact Hraise |].
  intros [pair Hp]. rewrite Hraise in Hp. discriminate Hp.
Qed.

(** ** The default wait loop *)

Section WaitFacts.
Context {World : Type}.
Variable self : Backend.t World.
Variable asyncio_sleep : Q -> World -> World.
Variable job_id : JobId.

(** [wait] is the loop with 600 polls left. *)
Lemma wait_unfold (w : World) :
  Backend.wait self asyncio_sleep job_id w
  = Backend.wait_loop self asyncio_sleep 600 job_id w.
Proof. reflexivity. Qed.

(** One turn of the loop, by what the poll produced. *)
Lemma wait_loop_step (n : nat) (w : World) :
  Backend.wait_loop self asyncio_sleep (S n) job_id w
  = let '(r, w1) := Backend.status self job_id w in
    let poll := Backend.status_call job_id r in
    match r with
    | Raises e => (Raises e, w1, [poll])
    | Returns JobStatus.COMPLETED =>
        let '(r2, w2) := Backend.result self job_id w1 in
        (r2, w2, [poll; Backend.result_call job_id r2])
    | Returns JobStatus.FAILED =>
        (Raises (JobFailedError ("Job " ++ job_id ++ " failed")), w1,
         [poll])
    | Returns JobStatus.CANCELLED =>
        (Raises (JobCancelledError ("Job " ++ job_id ++ " cancelled")), w1,
         [poll])
    | Returns _ =>
        let '(r2, w2, t2) :=
          Backend.wait_loop self asyncio_sleep n job_id
            (asyncio_sleep (1 # 2) w1) in
        (r2, w2, poll :: Backend.sleep_call (1 # 2) :: t2)
    end.
Proof.
  cbn [Backend.wait_loop].
  unfold Backend.bind, Backend.await_status, Backend.await_result,
    Backend.await_sleep, Backend.raise.
  destruct (Backend.status self job_id w) as [[s | e] w1];
    [destruct s |]; cbn [app]; try reflexivity.
  - destruct (Backend.wait_loop self asyncio_sleep n job_id
                (asyncio_sleep (1 # 2) w1)) as [[r2 w2] t2].
    reflexivity.
  - destruct (Backend.wait_loop self asyncio_sleep n job_id
                (asyncio_sleep (1 # 2) w1)) as [[r2 w2] t2].
    reflexivity.
  - destruct (Backend.result self job_id w1) as [r2 w2]. reflexivity.
Qed.

(** Every run of the loop is one of the runs of [wait_run]. *)
Lemma wait_loop_run (n : nat) :
  forall w,
    Backend.wait_run job_id n
      (Backend.trace (Backend.wait_loop self asyncio_sleep n job_id w))
      (Backend.outcome (Backend.wait_loop self asyncio_sleep n job_id w)).
Proof.
  induction n as [| n IH]; intros w.
  - apply Backend.run_timeout.
  - rewrite wait_loop_step.
    destruct (Backend.status self job_id w) as [[s | e] w1]; cbv zeta.
    + destruct s.
      * specialize (IH (asyncio_sleep (1 # 2) w1)).
        destruct (Backend.wait_loop self asyncio_sleep n job_id
                    (asyncio_sleep (1 # 2) w1))
          as [[r2 w2] t2].
        now apply Backend.run_pending.
      * specialize (IH (asyncio_sleep (1 # 2) w1)).
        destruct (Backend.wait_loop self asyncio_sleep n job_id
                    (asyncio_sleep (1 # 2) w1))
          as [[r2 w2] t2].
        now apply Backend.run_pending.
      * destruct (Backend.result self job_id w1) as [r2 w2].
        apply Backend.run_completed.
      * apply Backend.run_failed.
      * apply Backend.run_cancelled.
    + apply Backend.run_status_raised.
Qed.

(** The trace records what the backend answered: poll number [k] is the
    answer of [status] in the world reached after [k] polls and sleeps. *)
Lemma polls_are_status_answers (n : nat) :
  forall w k p,
    nth_error
      (Backend.polls
         (Backend.trace (Backend.wait_loop self asyncio_sleep n job_id w))) k
    = Some p ->
    p = fst (Backend.status self job_id
               (Backend.world_at_poll self asyncio_sleep job_id k w)).
Proof.
  induction n as [| n IH]; intros w k p.
  - cbn. now destruct k.
  - rewrite wait_loop_step.
    destruct (Backend.status self job_id w) as [[s | e] w1] eqn:Est;
      cbv zeta.
    + assert (Hhead :
        forall tl, nth_error (Returns s :: tl) k = Some p ->
          (k = 0%nat /\ p = Returns s)
          \/ exists k', k = S k' /\ nth_error tl k' = Some p).
      { intros tl. destruct k as [| k']; cbn.
        - intros [= <-]. now left.
        - intros Hk. right. now exists k'. }
      assert (Hlast : nth_error [Returns s] k = Some p ->
                      p = fst (Backend.status self job_id
                                 (Backend.world_at_poll self asyncio_sleep
                                    job_id k w))).
      { intros Hk. apply Hhead in Hk.
        destruct Hk as [[-> ->] | [k' [-> Hk]]].
        - cbn. now rewrite Est.
        - now destruct k'. }
      destruct s.
      * destruct (Backend.wait_loop self asyncio_sleep n job_id
                    (asyncio_sleep (1 # 2) w1))
          as [[r2 w2] t2] eqn:Erun.
        cbn. intros Hk. apply Hhead in Hk.
        destruct Hk as [[-> ->] | [k' [-> Hk]]].
        -- cbn. now rewrite Est.
        -- cbn [Backend.world_at_poll]. rewrite Est. cbn [snd].
           apply (IH _ k' p). now rewrite Erun.
      * destruct (Backend.wait_loop self asyncio_sleep n job_id
                    (asyncio_sleep (1 # 2) w1))
          as [[r2 w2] t2] eqn:Erun.
        cbn. intros Hk. apply Hhead in Hk.
        destruct Hk as [[-> ->] | [k' [-> Hk]]].
        -- cbn. now rewrite Est.
        -- cbn [Backend.world_at_poll]. rewrite Est. cbn [snd].
           apply (IH _ k' p). now rewrite Erun.
      * destruct (Backend.result self job_id w1) as [r2 w2].
        exact Hlast.
      * exact Hlast.
      * exact Hlast.
    + cbn. destruct k as [| k']; cbn.
      * intros [= <-]. now rewrite Est.
      * now destruct k'.
Qed.

End WaitFacts.

(** ** Reading the polls of a trace *)

Lemma pending_poll_status (s : JobStatus.t) :
  JobStatus.is_pending s = true -> Backend.pending_poll (Returns s).
Proof. unfold Backend.pending_poll. destruct s; cbn; intros H; auto; discriminate. Qed.

Lemma pending_poll_not_terminal (p : Outcome JobStatus.t) (s : JobStatus.t) :
  Backend.pending_poll p -> p = Returns s -> JobStatus.is_terminal s = false.
Proof. intros [-> | ->] [= <-]; reflexivity. Qed.

Lemma completed_first_nil (n : nat) : ~ Backend.completed_first_within n [].
Proof. intros [k [_ [Hk _]]]. now destruct k. Qed.

Lemma completed_first_pending (n : nat) p ps :
  Backend.pending_poll p ->
  Backend.completed_first_within (S n) (p :: ps)
  <-> Backend.completed_first_within n ps.
Proof.
  intros Hp. split.
  - intros [k [Hlt [Hk Hbefore]]]. destruct k as [| k]; cbn in Hk.
    + destruct Hp as [-> | ->]; discriminate.
    + exists k. split; [lia |]. split; [exact Hk |].
      intros i Hi. apply (Hbefore (S i)). lia.
  - intros [k [Hlt [Hk Hbefore]]]. exists (S k).
    split; [lia |]. split; [exact Hk |].
    intros [| i] Hi; cbn.
    + destruct Hp as [-> | ->]; split; discriminate.
    + apply Hbefore. lia.
Qed.

Lemma completed_first_single (n : nat) p :
  Backend.completed_first_within (S n) [p]
  <-> p = Returns JobStatus.COMPLETED.
Proof.
  split.
  - intros [k [_ [Hk _]]]. destruct k as [| k]; cbn in Hk.
    + now injection Hk.
    + now destruct k.
  - intros ->. exists 0%nat. split; [lia |]. split; [reflexivity |].
    intros i Hi. lia.
Qed.

Lemma first_terminal_nil (n : nat) s : ~ Backend.first_terminal_within n s [].
Proof. intros [_ [k [_ [Hk _]]]]. now destruct k. Qed.

Lemma first_terminal_pending (n : nat) s p ps :
  Backend.pending_poll p ->
  Backend.first_terminal_within (S n) s (p :: ps)
  <-> Backend.first_terminal_within n s ps.
Proof.
  intros Hp. split.
  - intros [Hs [k [Hlt [Hk Hbefore]]]]. split; [exact Hs |].
    destruct k as [| k]; cbn in Hk.
    + injection Hk as Hk.
      rewrite (pending_poll_not_terminal p s Hp Hk) in Hs. discriminate.
    + exists k. split; [lia |]. split; [exact Hk |].
      intros i s' Hi. apply (Hbefore (S i)). lia.
  - intros [Hs [k [Hlt [Hk Hbefore]]]]. split; [exact Hs |].
    exists (S k). split; [lia |]. split; [exact Hk |].
    intros [| i] s' Hi; cbn.
    + intros [= Hp']. exact (pending_poll_not_terminal p s' Hp Hp').
    + apply Hbefore. lia.
Qed.

Lemma first_terminal_single (n : nat) s p :
  Backend.first_terminal_within (S n) s [p]
  <-> JobStatus.is_terminal s = true /\ p = Returns s.
Proof.
  split.
  - intros [Hs [k [_ [Hk _]]]]. split; [exact Hs |].
    destruct k as [| k]; cbn in Hk.
    + now injection Hk.
    + now destruct k.
  - intros [Hs ->]. split; [exact Hs |]. exists 0%nat.
    split; [lia |]. split; [reflexivity |]. intros i s' Hi. lia.
Qed.

Lemma not_pending_terminal (s : JobStatus.t) ps :
  JobStatus.is_terminal s = true ->
  ~ Forall Backend.pending_poll (Returns s :: ps).
Proof.
  intros Hs Hall. inversion Hall as [| p ps' Hp _]; subst.
  rewrite (pending_poll_not_terminal (Returns s) s Hp eq_refl) in Hs.
  discriminate.
Qed.

(** A run in which every call returned satisfies the contract. *)
Lemma wait_run_contract (job_id : JobId) (n : nat) tr out :
  Backend.wait_run job_id n tr out ->
  Backend.calls_returned tr = true ->
  Backend.wait_contract_within n job_id out tr.
Proof.
  unfold Backend.wait_contract_within.
  induction 1 as [| n s tr out Hs Hrun IH | n r | n | n | n e];
    intros Hret; cbn [Backend.polls].
  - (* no poll left *)
    split; [| split; [| split]].
    + split; [intros [v [Hv _]]; discriminate |].
      intros Hc. now apply completed_first_nil in Hc.
    + split; [intros [msg Hmsg]; discriminate |].
      intros Hf. now apply first_terminal_nil in Hf.
    + split; [intros [msg Hmsg]; discriminate |].
      intros Hf. now apply first_terminal_nil in Hf.
    + intros _. split; [eexists; reflexivity | reflexivity].
  - (* a pending poll and a sleep, then the rest of the run *)
    cbn in Hret. destruct (IH Hret) as (IHa & IHf & IHc & IHt).
    pose proof (pending_poll_status s Hs) as Hp.
    rewrite completed_first_pending, !first_terminal_pending by exact Hp.
    split; [| split; [| split]].
    + rewrite <- IHa. split; intros [v [Hv Hin]]; exists v;
        (split; [exact Hv |]).
      * destruct Hin as [Hin | [Hin | Hin]];
          [discriminate | discriminate | exact Hin].
      * right. right. exact Hin.
    + exact IHf.
    + exact IHc.
    + intros Hall. inversion Hall as [| p ps Hp' Hrest]; subst.
      destruct (IHt Hrest) as [Hmsg Hlen].
      split; [exact Hmsg |]. cbn [List.length]. now rewrite Hlen.
  - (* COMPLETED: the outcome is that of result *)
    destruct r as [v | e]; [| discriminate Hret].
    rewrite completed_first_single, !first_terminal_single.
    split; [| split; [| split]].
    + split; [reflexivity |]. intros _.
      exists v. split; [reflexivity |]. right. now left.
    + split; [intros [msg Hmsg]; discriminate |].
      intros [_ Heq]. discriminate.
    + split; [intros [msg Hmsg]; discriminate |].
      intros [_ Heq]. discriminate.
    + intros Hall. now apply not_pending_terminal in Hall.
  - (* FAILED *)
    rewrite completed_first_single, !first_terminal_single.
    split; [| split; [| split]].
    + split; [intros [v [Hv _]]; discriminate | discriminate].
    + split; [now split | intros _; eexists; reflexivity].
    + split; [intros [msg Hmsg]; discriminate |].
      intros [_ Heq]. discriminate.
    + intros Hall. now apply not_pending_terminal in Hall.
  - (* CANCELLED *)
    rewrite completed_first_single, !first_terminal_single.
    split; [| split; [| split]].
    + split; [intros [v [Hv _]]; discriminate | discriminate].
    + split; [intros [msg Hmsg]; discriminate |].
      intros [_ Heq]. discriminate.
    + split; [now split | intros _; eexists; reflexivity].
    + intros Hall. now apply not_pending_terminal in Hall.
  - (* status raised *)
    discriminate Hret.
Qed.

(** A call of [status] or [result] that raises ends the run with the same
    exception. *)
Lemma wait_run_propagates (job_id : JobId) (n : nat) tr out :
  Backend.wait_run job_id n tr out ->
  forall e,
    In (Backend.status_call job_id (Raises e)) tr
    \/ In (Backend.result_call job_id (Raises e)) tr ->
    out = Raises e.
Proof.
  induction 1 as [| n s tr out Hs Hrun IH | n r | n | n | n e'];
    intros e Hin; cbn [In] in Hin.
  - tauto.
  - apply IH.
    destruct Hin as [[Hin | [Hin | Hin]] | [Hin | [Hin | Hin]]];
      try discriminate; auto.
  - destruct Hin as [[Hin | [Hin | []]] | [Hin | [Hin | []]]];
      try discriminate. now injection Hin.
  - destruct Hin as [[Hin | []] | [Hin | []]]; discriminate.
  - destruct Hin as [[Hin | []] | [Hin | []]]; discriminate.
  - destruct Hin as [[Hin | []] | [Hin | []]]; try discriminate.
    now injection Hin as ->.
Qed.

(** In a run, [result] is called at most once, as the last call, for the
    job waited for, and right after a poll that returned COMPLETED. *)
Lemma wait_run_result_call (job_id : JobId) (n : nat) tr out :
  Backend.wait_run job_id n tr out ->
  forall pre c post,
    tr = pre ++ c :: post ->
    Backend.is_result_call c = true ->
    post = []
    /\ c = Backend.result_call job_id out
    /\ exists pre',
         pre = pre'
               ++ [Backend.status_call job_id (Returns JobStatus.COMPLETED)].
Proof.
  induction 1 as [| n s tr out Hs Hrun IH | n r | n | n | n e];
    intros pre c post Heq Hc.
  - now destruct pre.
  - destruct pre as [| x [| y pre]]; cbn in Heq.
    + injection Heq as <- _. discriminate Hc.
    + injection Heq as _ <- _. discriminate Hc.
    + injection Heq as <- <- Heq.
      destruct (IH pre c post Heq Hc) as (Hpost & Hcall & pre' & Hpre).
      split; [exact Hpost |]. split; [exact Hcall |].
      exists (Backend.status_call job_id (Returns s)
              :: Backend.sleep_call (1 # 2) :: pre').
      now rewrite Hpre.
  - destruct pre as [| x [| y pre]]; cbn in Heq.
    + injection Heq as <- _. discriminate Hc.
    + injection Heq as <- <- <-.
      split; [reflexivity |]. split; [reflexivity |]. now exists [].
    + injection Heq as _ _ Heq. now destruct pre.
  - destruct pre as [| x pre]; cbn in Heq.
    + injection Heq as <- _. discriminate Hc.
    + injection Heq as _ Heq. now destruct pre.
  - destruct pre as [| x pre]; cbn in Heq.
    + injection Heq as <- _. discriminate Hc.
    + injection Heq as _ Heq. now destruct pre.
  - destruct pre as [| x pre]; cbn in Heq.
    + injection Heq as <- _. discriminate Hc.
    + injection Heq as _ Heq. now destruct pre.
Qed.

(** A run without a poll that returned COMPLETED has no call of [result]. *)
Lemma wait_run_no_result (job_id : JobId) (n : nat) tr out :
  Backend.wait_run job_id n tr out ->
  ~ In (Returns JobStatus.COMPLETED) (Backend.polls tr) ->
  forall c, In c tr -> Backend.is_result_call c = false.
Proof.
  induction 1 as [| n s tr out Hs Hrun IH | n r | n | n | n e];
    cbn [Backend.polls In]; intros Hno c Hin.
  - contradiction.
  - destruct Hin as [<- | [<- | Hin]]; [reflexivity | reflexivity |].
    apply IH; [| exact Hin]. intros Hc. apply Hno. now right.
  - exfalso. apply Hno. now left.
  - destruct Hin as [<- | []]. reflexivity.
  - destruct Hin as [<- | []]. reflexivity.
  - destruct Hin as [<- | []]. reflexivity.
Qed.

Section WaitTheorems.
Context {World : Type}.
Variable self : Backend.t World.
Variable asyncio_sleep : Q -> World -> World.

(** C1, amended: in every run of [wait] in which each call of [status]
    and of [result] returns normally, [wait] returns the value of
    [result] exactly when some poll among the first 600 returns COMPLETED
    before any returns FAILED or CANCELLED; it fails with JobFailed
    (JobCancelled) exactly when the first terminal status observed within
    those polls is FAILED (CANCELLED); and when every poll returned QUEUED
    or RUNNING it fails with Timeout after exactly 600 polls. *)
Theorem wait_outcome (job_id : JobId) (w : World) :
  let run := Backend.wait self asyncio_sleep job_id w in
  Backend.calls_returned (Backend.trace run) = true ->
  Backend.wait_contract job_id run.
Proof.
  intros run Hret. subst run. rewrite wait_unfold in Hret |- *.
  exact (wait_run_contract job_id 600 _ _
           (wait_loop_run self asyncio_sleep job_id 600 w) Hret).
Qed.

(** C10: in every run of [wait], a call of [result] is the last call of
    the run, is for the job waited for, and comes immediately after a
    poll of [status] for that job that returned COMPLETED; a run in which
    no poll returned COMPLETED contains no call of [result]. *)
Theorem result_only_after_completed (job_id : JobId) (w : World) :
  let run := Backend.wait self asyncio_sleep job_id w in
  (forall pre c post,
      Backend.trace run = pre ++ c :: post ->
      Backend.is_result_call c = true ->
      post = []
      /\ c = Backend.result_call job_id (Backend.outcome run)
      /\ exists pre',
           pre = pre' ++ [Backend.status_call job_id
                            (Returns JobStatus.COMPLETED)])
  /\ (~ In (Returns JobStatus.COMPLETED)
          (Backend.polls (Backend.trace run)) ->
      forall c, In c (Backend.trace run) ->
                Backend.is_result_call c = false).
Proof.
  intros run. subst run. rewrite wait_unfold.
  pose proof (wait_loop_run self asyncio_sleep job_id 600 w) as Hrun.
  split.
  - exact (wait_run_result_call job_id 600 _ _ Hrun).
  - exact (wait_run_no_result job_id 600 _ _ Hrun).
Qed.

End WaitTheorems.

(** *** Runs on concrete backends *)

Example completed_run_outcome :
  Backend.outcome Samples.completed_run = Returns Samples.sample_result
  /\ List.length (Backend.polls (Backend.trace Samples.completed_run)) = 6%nat
  /\ Backend.trace Samples.failed_run
     = [Backend.status_call "job-7" (Returns JobStatus.QUEUED);
        Backend.sleep_call (1 # 2);
        Backend.status_call "job-7" (Returns JobStatus.RUNNING);
        Backend.sleep_call (1 # 2);
        Backend.status_call "job-7" (Returns JobStatus.FAILED)]
  /\ Backend.outcome Samples.failed_run
     = Raises (JobFailedError "Job job-7 failed")
  /\ Backend.outcome Samples.cancelled_run
     = Raises (JobCancelledError "Job job-7 cancelled").
Proof. vm_compute. repeat split. Qed.

(** COMPLETED at the 600th poll is still seen; at what would be the 601st
    it is not, and the loop has polled exactly 600 times. *)
Example poll_limit_runs :
  Backend.outcome Samples.just_in_time_run = Returns Samples.sample_result
  /\ List.length (Backend.polls (Backend.trace Samples.just_in_time_run))
     = 600%nat
  /\ Backend.outcome Samples.stalled_run
     = Raises (TimeoutError "Timeout waiting for job job-7")
  /\ List.length (Backend.polls (Backend.trace Samples.stalled_run))
     = 600%nat
  /\ List.length (Backend.trace Samples.stalled_run) = 1200%nat.
Proof. vm_compute. repeat split. Qed.

Example forgetful_run_outcome :
  Backend.outcome Samples.forgetful_run = Raises (JobNotFoundError "job-7")
  /\ Backend.trace Samples.forgetful_run
     = [Backend.status_call "job-7" (Raises (JobNotFoundError "job-7"))].
Proof. vm_compute. repeat split. Qed.

Lemma wait_outcome_witness :
  Backend.calls_returned (Backend.trace Samples.completed_run) = true
  /\ Backend.wait_contract "job-7" Samples.completed_run.
Proof.
  split; [vm_compute; reflexivity |].
  apply (wait_outcome (Samples.timed_backend 3 5 JobStatus.COMPLETED)
           Samples.tick "job-7" 0%nat).
  vm_compute. reflexivity.
Defined.

(** C1, as stated, fails on a backend whose [result] raises: the first poll
    returns COMPLETED, yet [wait] returns no value, and it fails with
    JobFailed although the first terminal status observed is COMPLETED. *)
Lemma wait_contract_refuted :
  Backend.polls (Backend.trace Samples.broken_result_run)
  = [Returns JobStatus.COMPLETED]
  /\ Backend.outcome Samples.broken_result_run
     = Raises (JobFailedError "Job job-7 has no result")
  /\ ~ Backend.first_terminal_within 600 JobStatus.FAILED
         (Backend.polls (Backend.trace Samples.broken_result_run))
  /\ ~ Backend.wait_contract "job-7" Samples.broken_result_run.
Proof.
  split; [vm_compute; reflexivity |]. split; [vm_compute; reflexivity |].
  split.
  { replace (Backend.polls (Backend.trace Samples.broken_result_run))
      with [Returns JobStatus.COMPLETED] by (vm_compute; reflexivity).
    rewrite first_terminal_single. intros [_ Heq]. discriminate Heq. }
  unfold Backend.wait_contract, Backend.wait_contract_within.
  intros [Hreturns _].
  assert (Hfirst : Backend.completed_first_within 600
                     (Backend.polls (Backend.trace Samples.broken_result_run))).
  { exists 0%nat. split; [apply Nat.lt_0_succ |].
    split; [vm_compute; reflexivity |]. intros i Hi. inversion Hi. }
  apply Hreturns in Hfirst. destruct Hfirst as [v [Hv _]].
  vm_compute in Hv. discriminate Hv.
Qed.

Lemma result_only_after_completed_witness :
  Backend.outcome Samples.failed_run
  = Raises (JobFailedError "Job job-7 failed")
  /\ forall c, In c (Backend.trace Samples.failed_run) ->
               Backend.is_result_call c = false.
Proof.
  split; [vm_compute; reflexivity |].
  apply (result_only_after_completed
           (Samples.timed_backend 1 2 JobStatus.FAILED) Samples.tick
           "job-7" 0%nat).
  vm_compute. intros [H | [H | [H | []]]]; discriminate H.
Defined.


(* ================================================================== *)
(** * Further properties of the module *)

(** ** JobStatus *)

(** Every status is pending or terminal and never both; a successful
    status is terminal. *)
Theorem status_pending_xor_terminal (s : JobStatus.t) :
  JobStatus.is_terminal s = negb (JobStatus.is_pending s)
  /\ (JobStatus.is_success s = true -> JobStatus.is_terminal s = true)
  /\ (JobStatus.is_pending s = true -> JobStatus.is_success s = false).
Proof. destruct s; cbn; repeat split; intros H; congruence. Qed.

(** ** GateSet presets *)

(** In every preset of [GateSet] a native gate is a supported gate. *)
Theorem preset_native_supported (g : GateSet.t) (gate : string) :
  In g Presets.gate_sets ->
  GateSet.is_native g gate = true -> GateSet.contains g gate = true.
Proof.
  intros Hg Hn.
  assert (Hsub : forallb (fun x => GateSet.contains g x) (GateSet.native g)
                 = true).
  { cbn in Hg.
    repeat (destruct Hg as [<- | Hg]; [reflexivity |]). contradiction. }
  unfold GateSet.is_native in Hn.
  destruct (GateSet.native g) as [| x xs] eqn:E; [exact Hn |].
  rewrite forallb_forall in Hsub. apply Hsub. now apply str_in_In.
Qed.

Lemma preset_native_supported_witness :
  In GateSet.ibm_heron Presets.gate_sets
  /\ GateSet.is_native GateSet.ibm_heron "rzz" = true
  /\ GateSet.contains GateSet.ibm_heron "rzz" = true
  /\ GateSet.contains GateSet.ibm_eagle "id" = true
  /\ GateSet.is_native GateSet.ibm_eagle "id" = false.
Proof.
  assert (Hin : In GateSet.ibm_heron Presets.gate_sets)
    by (cbn; right; right; left; reflexivity).
  split; [exact Hin |]. split; [reflexivity |].
  split; [| split; reflexivity].
  exact (preset_native_supported GateSet.ibm_heron "rzz" Hin eq_refl).
Defined.

(** ** Topology constructors *)

Lemma range_from_In (a b x : Z) : In x (range_from a b) <-> a <= x < b.
Proof.
  unfold range_from. rewrite in_map_iff. split.
  - intros [i [<- Hi]]. apply range_In in Hi. lia.
  - intros Hx. exists (x - a). split; [lia |]. apply range_In. lia.
Qed.

Lemma linear_edges_In (n a b : Z) :
  In (a, b) (Topology.edges (Topology.linear n))
  <-> 0 <= a /\ b = a + 1 /\ b < n.
Proof.
  cbn [Topology.linear Topology.edges]. rewrite in_map_iff. split.
  - intros [i [[= <- <-] Hi]]. apply range_In in Hi. lia.
  - intros (Ha & -> & Hb). exists a. split; [reflexivity |].
    apply range_In. lia.
Qed.

Lemma star_edges_In (n a b : Z) :
  In (a, b) (Topology.edges (Topology.star n)) <-> a = 0 /\ 1 <= b < n.
Proof.
  cbn [Topology.star Topology.edges]. rewrite in_map_iff. split.
  - intros [i [[= <- <-] Hi]]. apply range_from_In in Hi. lia.
  - intros (-> & Hb). exists b. split; [reflexivity |].
    now apply range_from_In.
Qed.

Lemma full_edges_In (n a b : Z) :
  In (a, b) (Topology.edges (Topology.full n)) <-> 0 <= a < b /\ b < n.
Proof.
  cbn [Topology.full Topology.edges]. rewrite in_flat_map. split.
  - intros [i [Hi Hin]]. apply range_In in Hi. apply in_map_iff in Hin.
    destruct Hin as [j [[= <- <-] Hj]]. apply range_from_In in Hj. lia.
  - intros (Ha & Hb). exists a. split; [apply range_In; lia |].
    apply in_map_iff. exists b. split; [reflexivity |].
    apply range_from_In. lia.
Qed.

Lemma linear_connected_iff (n a b : Z) :
  Topology.is_connected (Topology.linear n) a b = true
  <-> (0 <= a /\ b = a + 1 /\ b < n) \/ (0 <= b /\ a = b + 1 /\ a < n).
Proof. now rewrite is_connected_edges, !linear_edges_In. Qed.

Lemma star_connected_iff (n a b : Z) :
  Topology.is_connected (Topology.star n) a b = true
  <-> (a = 0 /\ 1 <= b < n) \/ (b = 0 /\ 1 <= a < n).
Proof. now rewrite is_connected_edges, !star_edges_In. Qed.

Lemma full_connected_iff (n a b : Z) :
  Topology.is_connected (Topology.full n) a b = true
  <-> 0 <= a < n /\ 0 <= b < n /\ a <> b.
Proof. rewrite is_connected_edges, !full_edges_In. lia. Qed.

(** In [linear n] two qubits are connected exactly when they are
    consecutive indices of the chain 0 .. n-1. *)
Theorem linear_connected (n a b : Z) :
  Topology.is_connected (Topology.linear n) a b = true
  <-> (0 <= a /\ b = a + 1 /\ b < n) \/ (0 <= b /\ a = b + 1 /\ a < n).
Proof. apply linear_connected_iff. Qed.

(** In [star n] two qubits are connected exactly when one of them is the
    hub 0 and the other is one of 1 .. n-1; two outer qubits are never
    connected. *)
Theorem star_connected (n a b : Z) :
  (Topology.is_connected (Topology.star n) a b = true
   <-> (a = 0 /\ 1 <= b < n) \/ (b = 0 /\ 1 <= a < n))
  /\ (a <> 0 -> b <> 0 ->
      Topology.is_connected (Topology.star n) a b = false).
Proof.
  split; [apply star_connected_iff |]. intros Ha Hb.
  apply not_true_is_false. rewrite star_connected_iff. lia.
Qed.

(** In [full n] two qubits are connected exactly when they are distinct
    indices of 0 .. n-1. *)
Theorem full_connected (n a b : Z) :
  Topology.is_connected (Topology.full n) a b = true
  <-> 0 <= a < n /\ 0 <= b < n /\ a <> b.
Proof. apply full_connected_iff. Qed.

(** No constructor connects a qubit to itself or to an index outside the
    device: connected qubits of [linear n], [star n] and [full n] are
    distinct indices of 0 .. n-1, and those of [grid rows cols] are
    distinct indices of 0 .. rows*cols-1. *)
Theorem connected_qubits_in_range (a b : Z) :
  (forall n,
      Topology.is_connected (Topology.linear n) a b = true ->
      0 <= a < n /\ 0 <= b < n /\ a <> b)
  /\ (forall n,
        Topology.is_connected (Topology.star n) a b = true ->
        0 <= a < n /\ 0 <= b < n /\ a <> b)
  /\ (forall n,
        Topology.is_connected (Topology.full n) a b = true ->
        0 <= a < n /\ 0 <= b < n /\ a <> b)
  /\ (forall rows cols,
        Topology.is_connected (Topology.grid rows cols) a b = true ->
        0 <= a < rows * cols /\ 0 <= b < rows * cols /\ a <> b).
Proof.
  split; [| split; [| split]].
  - intros n H. apply linear_connected_iff in H. lia.
  - intros n H. apply star_connected_iff in H. lia.
  - intros n H. apply full_connected_iff in H. lia.
  - intros rows cols H. apply grid_connected_iff in H.
    unfold Topology.right_or_down, Topology.grid_index in H.
    destruct H as [(r & c & Hr & Hc & -> & Hn) | (r & c & Hr & Hc & -> & Hn)];
      assert (H0 : 0 <= r * cols) by (apply Z.mul_nonneg_nonneg; lia);
      assert (H1 : (r + 1) * cols <= rows * cols)
        by (apply Z.mul_le_mono_nonneg_r; lia);
      (destruct Hn as [[Hlt ->] | [Hlt ->]];
       [| assert (H2 : (r + 2) * cols <= rows * cols)
            by (apply Z.mul_le_mono_nonneg_r; lia)]);
      lia.
Qed.

Lemma connected_qubits_in_range_witness :
  Topology.is_connected (Topology.grid 3 4) 6 10 = true
  /\ (0 <= 6 < 3 * 4 /\ 0 <= 10 < 3 * 4 /\ 6 <> 10)
  /\ Topology.is_connected (Topology.star 5) 0 4 = true
  /\ (0 <= 0 < 5 /\ 0 <= 4 < 5 /\ 0 <> 4).
Proof.
  split; [reflexivity |]. split.
  - destruct (connected_qubits_in_range 6 10) as (_ & _ & _ & Hgrid).
    exact (Hgrid 3 4 eq_refl).
  - split; [reflexivity |].
    destruct (connected_qubits_in_range 0 4) as (_ & Hstar & _).
    exact (Hstar 5 eq_refl).
Defined.

(** *** Counting edges *)

Lemma range_length (n : Z) : List.length (range n) = Z.to_nat n.
Proof. unfold range. now rewrite length_map, length_seq. Qed.

Lemma range_from_length (a b : Z) :
  List.length (range_from a b) = Z.to_nat (b - a).
Proof. unfold range_from. now rewrite length_map, range_length. Qed.

Lemma list_sum_map_add {A : Type} (f g : A -> nat) (l : list A) :
  list_sum (map (fun x => f x + g x)%nat l)
  = (list_sum (map f l) + list_sum (map g l))%nat.
Proof.
  unfold list_sum. induction l as [| x l IH]; cbn; [reflexivity | lia].
Qed.

Lemma list_sum_map_const {A : Type} (k : nat) (l : list A) :
  list_sum (map (fun _ => k) l) = (List.length l * k)%nat.
Proof.
  unfold list_sum. induction l as [| x l IH]; cbn; [reflexivity | lia].
Qed.

(** Among the first [k] of [m] positions, those with a successor below
    [m]. *)
Lemma count_with_successor (m k : nat) :
  (k <= m)%nat ->
  list_sum
    (map (fun i => if Z.of_nat i + 1 <? Z.of_nat m then 1%nat else 0%nat)
       (seq 0 k))
  = Nat.min k (m - 1).
Proof.
  induction k as [| k IH]; intros Hk; [reflexivity |].
  rewrite seq_S, map_app, list_sum_app, IH by lia.
  unfold list_sum. cbn [map fold_right Nat.add].
  destruct (Z.ltb_spec (Z.of_nat k + 1) (Z.of_nat m)); lia.
Qed.

(** The sizes left below a running index: twice their sum over the first
    [k] of [m] indices. *)
Lemma sum_remaining (m k : nat) :
  (k <= m)%nat ->
  2 * Z.of_nat
        (list_sum
           (map (fun i => Z.to_nat (Z.of_nat m - (Z.of_nat i + 1)))
              (seq 0 k)))
  = Z.of_nat k * (2 * Z.of_nat m - Z.of_nat k - 1).
Proof.
  induction k as [| k IH]; intros Hk; [reflexivity |].
  rewrite seq_S, map_app, list_sum_app.
  rewrite Nat2Z.inj_add, Z.mul_add_distr_l, IH by lia.
  unfold list_sum. cbn [map fold_right Nat.add].
  rewrite Nat.add_0_r, Z2Nat.id by lia. lia.
Qed.

(** [linear n] and [star n] have n-1 edges and [full n] has n(n-1)/2, and
    none when [n] is at most 1. *)
Theorem edge_counts (n : Z) :
  Z.of_nat (List.length (Topology.edges (Topology.linear n)))
  = Z.max 0 (n - 1)
  /\ Z.of_nat (List.length (Topology.edges (Topology.star n)))
     = Z.max 0 (n - 1)
  /\ 2 * Z.of_nat (List.length (Topology.edges (Topology.full n)))
     = Z.max 0 n * (Z.max 0 n - 1).
Proof.
  split; [| split].
  - cbn [Topology.linear Topology.edges].
    rewrite length_map, range_length. lia.
  - cbn [Topology.star Topology.edges].
    rewrite length_map, range_from_length. lia.
  - cbn [Topology.full Topology.edges].
    rewrite length_flat_map. unfold range at 1. rewrite map_map.
    rewrite (map_ext _
               (fun i => Z.to_nat (Z.of_nat (Z.to_nat n) - (Z.of_nat i + 1)))).
    + rewrite sum_remaining by lia. lia.
    + intros i. rewrite length_map, range_from_length.
      destruct (Z.le_gt_cases 0 n); [now rewrite Z2Nat.id | lia].
Qed.

Lemma grid_cell_length (rows cols r c : Z) :
  List.length (Topology.grid_cell rows cols r c)
  = Nat.add (Nat.b2n (c + 1 <? cols)) (Nat.b2n (r + 1 <? rows)).
Proof.
  unfold Topology.grid_cell. rewrite length_app.
  now destruct (c + 1 <? cols), (r + 1 <? rows).
Qed.

Lemma count_b2n_successor (m k : nat) :
  (k <= m)%nat ->
  list_sum (map (fun i => Nat.b2n (Z.of_nat i + 1 <? Z.of_nat m)) (seq 0 k))
  = Nat.min k (m - 1).
Proof. apply count_with_successor. Qed.

Lemma list_sum_map_scale (C : nat) (l : list nat) :
  list_sum (map (fun x => Nat.mul C x) l) = Nat.mul C (list_sum l).
Proof.
  unfold list_sum. induction l as [| x l IH]; cbn [map fold_right]; lia.
Qed.

Lemma grid_length (R C : nat) :
  List.length (Topology.edges (Topology.grid (Z.of_nat R) (Z.of_nat C)))
  = Nat.add (Nat.mul R (Nat.min C (C - 1))) (Nat.mul C (Nat.min R (R - 1))).
Proof.
  cbn [Topology.grid Topology.edges]. unfold range.
  rewrite !Nat2Z.id, length_flat_map, map_map.
  rewrite (map_ext _
             (fun r => Nat.add (Nat.min C (C - 1))
                         (Nat.mul C
                            (Nat.b2n (Z.of_nat r + 1 <? Z.of_nat R))))).
  - rewrite list_sum_map_add, list_sum_map_const, length_seq.
    rewrite <- (map_map (fun r => Nat.b2n (Z.of_nat r + 1 <? Z.of_nat R))
                  (fun x => Nat.mul C x)).
    rewrite list_sum_map_scale, count_b2n_successor by lia. reflexivity.
  - intros r. rewrite length_flat_map, map_map.
    rewrite (map_ext _
               (fun c => Nat.add (Nat.b2n (Z.of_nat c + 1 <? Z.of_nat C))
                           (Nat.b2n (Z.of_nat r + 1 <? Z.of_nat R))))
      by (intros c; apply grid_cell_length).
    rewrite list_sum_map_add, list_sum_map_const, length_seq.
    rewrite count_b2n_successor by lia. lia.
Qed.

(** A grid of at least one row and one column has rows*(cols-1) edges to
    the right and (rows-1)*cols edges down; without rows or without columns
    it has no edge. *)
Theorem grid_edge_count (rows cols : Z) :
  (1 <= rows -> 1 <= cols ->
   Z.of_nat (List.length (Topology.edges (Topology.grid rows cols)))
   = rows * (cols - 1) + (rows - 1) * cols)
  /\ (rows <= 0 \/ cols <= 0 ->
      Topology.edges (Topology.grid rows cols) = []).
Proof.
  split.
  - intros Hr Hc.
    rewrite <- (Z2Nat.id rows), <- (Z2Nat.id cols) by lia.
    rewrite grid_length. rewrite !Z2Nat.id by lia.
    rewrite Nat2Z.inj_add, !Nat2Z.inj_mul.
    rewrite !Nat.min_r by lia.
    rewrite !Nat2Z.inj_sub, !Z2Nat.id by lia. cbn. lia.
  - intros Hdeg. cbn [Topology.grid Topology.edges]. unfold range.
    destruct Hdeg as [Hr | Hc].
    + replace (Z.to_nat rows) with 0%nat by lia. reflexivity.
    + replace (Z.to_nat cols) with 0%nat by lia. cbn [seq map flat_map].
      induction (map Z.of_nat (seq 0 (Z.to_nat rows))) as [| r l IH];
        [reflexivity | exact IH].
Qed.

Lemma grid_edge_count_witness :
  Z.of_nat (List.length (Topology.edges (Topology.grid 3 4))) = 17
  /\ Topology.edges (Topology.grid 3 0) = [].
Proof.
  destruct (grid_edge_count 3 4) as [Hcount _].
  destruct (grid_edge_count 3 0) as [_ Hnone].
  split; [exact (Hcount ltac:(lia) ltac:(lia)) | apply Hnone; lia].
Defined.

(** A custom topology connects exactly the pairs of its edge list, in
    either orientation; with no edge nothing is connected, and joining two
    edge lists joins what they connect. *)
Theorem custom_connected (es es' : list (Z * Z)) (a b : Z) :
  (Topology.is_connected (Topology.custom es) a b = true
   <-> In (a, b) es \/ In (b, a) es)
  /\ Topology.is_connected (Topology.custom []) a b = false
  /\ Topology.is_connected (Topology.custom (es ++ es')) a b
     = Topology.is_connected (Topology.custom es) a b
       || Topology.is_connected (Topology.custom es') a b.
Proof.
  split; [apply is_connected_edges |]. split; [reflexivity |].
  unfold Topology.is_connected. cbn [Topology.custom Topology.edges].
  apply existsb_app.
Qed.

(** ** Counts: lookups, sizes and copies *)

Lemma get_setitem_other {V : Type} (d : PyDict.dict V) (k k' : string)
  (v default : V) :
  k <> k' ->
  PyDict.get (PyDict.setitem d k v) k' default = PyDict.get d k' default.
Proof.
  intros Hne. induction d as [| [k0 v0] d IH]; cbn.
  - destruct (String.eqb_spec k k'); [contradiction | reflexivity].
  - destruct (String.eqb_spec k0 k) as [-> | Hk0]; cbn.
    + destruct (String.eqb_spec k k'); [contradiction | reflexivity].
    + now rewrite IH.
Qed.

Lemma length_setitem {V : Type} (d : PyDict.dict V) (k : string) (v : V) :
  List.length (PyDict.setitem d k v)
  = (List.length d + (if str_in k (PyDict.keys d) then 0 else 1))%nat.
Proof.
  unfold str_in, PyDict.keys.
  induction d as [| [k0 v0] d IH];
    cbn [PyDict.setitem List.length map fst existsb]; [reflexivity |].
  rewrite (String.eqb_sym k k0).
  destruct (String.eqb k0 k); cbn [orb List.length]; [lia |].
  rewrite IH. destruct (existsb (String.eqb k) (map fst d)); lia.
Qed.

Lemma get_insert_any (c : Counts.t) (s k : string) (m : Z) :
  Counts.get (Counts.insert c s m) k
  = Counts.get c k + (if String.eqb s k then m else 0).
Proof.
  destruct (String.eqb_spec s k) as [-> | Hne].
  - apply get_insert.
  - unfold Counts.get, Counts.insert. cbn [Counts._counts].
    rewrite get_setitem_other by exact Hne. lia.
Qed.

(** [insert] changes the count of its own bitstring only, by the amount
    given; a bitstring that was never inserted has count 0. *)
Theorem insert_touches_one_key (c : Counts.t) (s k : string) (m : Z) :
  Counts.get (Counts.insert c s m) k
  = Counts.get c k + (if String.eqb s k then m else 0)
  /\ (~ In k (PyDict.keys (Counts._counts c)) -> Counts.get c k = 0)
  /\ Counts.get Counts.empty k = 0.
Proof.
  split; [apply get_insert_any |]. split; [| reflexivity].
  intros Hk. now apply get_absent.
Qed.

(** The order of two inserts does not matter for any count nor for the
    total, whether the two bitstrings are the same or not. *)
Theorem insert_order_irrelevant (c : Counts.t) (s s' : string) (m n : Z) :
  (forall k,
      Counts.get (Counts.insert (Counts.insert c s m) s' n) k
      = Counts.get (Counts.insert (Counts.insert c s' n) s m) k)
  /\ Counts.total_shots (Counts.insert (Counts.insert c s m) s' n)
     = Counts.total_shots (Counts.insert (Counts.insert c s' n) s m).
Proof.
  split.
  - intros k. rewrite !get_insert_any. lia.
  - rewrite !total_shots_insert. lia.
Qed.

(** [insert] adds an entry exactly when the bitstring is new, even with a
    count of 0, and never removes one; [bool] tells whether there is an
    entry, so it holds after any insert. *)
Theorem len_and_bool (c : Counts.t) (s : string) (m : Z) :
  Counts.len (Counts.insert c s m)
  = Counts.len c
    + (if str_in s (PyDict.keys (Counts._counts c)) then 0 else 1)
  /\ (Counts.bool c = true <-> 0 < Counts.len c)
  /\ Counts.bool (Counts.insert c s m) = true
  /\ Counts.len Counts.empty = 0
  /\ Counts.bool Counts.empty = false.
Proof.
  split; [| split; [| split; [| split; reflexivity]]].
  - unfold Counts.len, Counts.insert. cbn [Counts._counts].
    rewrite length_setitem.
    destruct (str_in s (PyDict.keys (Counts._counts c))); lia.
  - unfold Counts.bool, Counts.len.
    destruct (Counts._counts c); cbn [List.length]; split;
      try discriminate; try reflexivity; lia.
  - unfold Counts.bool, Counts.insert. cbn [Counts._counts].
    destruct (Counts._counts c) as [| [k0 v0] d]; cbn; [reflexivity |].
    now destruct (String.eqb k0 s).
Qed.

(** [from_dict] copies a dictionary faithfully: the same entries in the
    same order, hence the same counts and the same total, and a count of 0
    for every other bitstring. *)
Theorem from_dict_round_trip (d : PyDict.dict Z) :
  PyDict.unique_keys d = true ->
  Counts.items (Counts.from_dict d) = d
  /\ (forall k, Counts.get (Counts.from_dict d) k = PyDict.get d k 0)
  /\ Counts.total_shots (Counts.from_dict d) = sum (PyDict.values d)
  /\ Counts.len (Counts.from_dict d) = Z.of_nat (List.length d).
Proof.
  intros Hu.
  assert (Hcopy : Counts._counts (Counts.from_dict d) = d)
    by (apply of_pairs_unique; exact Hu).
  unfold Counts.items, Counts.get, Counts.total_shots, Counts.len,
    PyDict.items.
  rewrite Hcopy. repeat split.
Qed.

Lemma from_dict_round_trip_witness :
  PyDict.unique_keys [("00", 3); ("01", 5); ("10", 5); ("11", 2)] = true
  /\ Counts.items MoreSamples.tied_counts
     = [("00", 3); ("01", 5); ("10", 5); ("11", 2)]
  /\ Counts.total_shots MoreSamples.tied_counts = 15.
Proof.
  split; [reflexivity |].
  destruct (from_dict_round_trip
              [("00", 3); ("01", 5); ("10", 5); ("11", 2)] eq_refl)
    as (Hitems & _ & Htotal & _).
  split; [exact Hitems | exact Htotal].
Defined.


(** ** The most frequent outcome, continued *)

(** [max] settles on the first item of maximal count: with [pre] already
    passed below the best so far and [mid] passed at or below it, the item
    returned splits the whole sequence the same way. *)
Lemma max_by_count_split (rest : list (string * Z)) :
  forall pre best mid,
    (forall x, In x pre -> snd x < snd best) ->
    (forall x, In x mid -> snd x <= snd best) ->
    exists pre' post',
      pre ++ best :: mid ++ rest
      = pre' ++ Counts.max_by_count best rest :: post'
      /\ (forall x, In x pre' -> snd x < snd (Counts.max_by_count best rest))
      /\ (forall x, In x post' ->
            snd x <= snd (Counts.max_by_count best rest)).
Proof.
  induction rest as [| y rest IH]; intros pre best mid Hpre Hmid;
    cbn [Counts.max_by_count].
  - exists pre, mid. rewrite app_nil_r. auto.
  - destruct (Z.gtb_spec (snd y) (snd best)) as [Hgt | Hle].
    + destruct (IH (pre ++ best :: mid) y []) as (pre' & post' & Heq & H1 & H2).
      * intros x Hx. apply in_app_iff in Hx.
        destruct Hx as [Hx | [<- | Hx]];
          [specialize (Hpre x Hx) | | specialize (Hmid x Hx)]; lia.
      * intros x [].
      * exists pre', post'. split; [| auto].
        rewrite <- Heq, <- app_assoc. reflexivity.
    + destruct (IH pre best (mid ++ [y])) as (pre' & post' & Heq & H1 & H2).
      * exact Hpre.
      * intros x Hx. apply in_app_iff in Hx.
        destruct Hx as [Hx | [<- | []]]; [now apply Hmid | lia].
      * exists pre', post'. split; [| auto].
        rewrite <- Heq, <- app_assoc. reflexivity.
Qed.

(** [Counts.most_frequent] is [None] exactly on empty counts; otherwise it
    returns, of the entries with the greatest count, the one inserted
    first: every earlier entry has a strictly smaller count and no later
    entry a greater one. *)
Theorem most_frequent_first_maximal (c : Counts.t) :
  (Counts.most_frequent c = None <-> Counts.items c = [])
  /\ (forall bitstring count,
        Counts.most_frequent c = Some (bitstring, count) ->
        exists pre post,
          Counts.items c = pre ++ (bitstring, count) :: post
          /\ (forall b n, In (b, n) pre -> n < count)
          /\ (forall b n, In (b, n) post -> n <= count)).
Proof.
  unfold Counts.most_frequent, Counts.items, PyDict.items.
  destruct (Counts._counts c) as [| x rest]; split.
  - split; reflexivity.
  - intros b n Hsome. discriminate Hsome.
  - split; intros H; discriminate H.
  - intros b n [= Hmax].
    destruct (max_by_count_split rest [] x [])
      as (pre & post & Heq & Hpre & Hpost);
      [intros y [] | intros y [] |].
    rewrite Hmax in *. cbn [app] in Heq.
    exists pre, post. split; [exact Heq |]. split.
    + intros b' n' Hin. exact (Hpre (b', n') Hin).
    + intros b' n' Hin. exact (Hpost (b', n') Hin).
Qed.

Lemma most_frequent_first_maximal_witness :
  Counts.most_frequent MoreSamples.tied_counts = Some ("01", 5)
  /\ exists pre post,
       Counts.items MoreSamples.tied_counts = pre ++ ("01", 5) :: post
       /\ (forall b n, In (b, n) pre -> n < 5).
Proof.
  split; [reflexivity |].
  destruct (most_frequent_first_maximal MoreSamples.tied_counts) as [_ H].
  destruct (H "01" 5 eq_refl) as (pre & post & Heq & Hpre & _).
  exists pre, post. split; [exact Heq | exact Hpre].
Defined.

(** [ExecutionResult.most_frequent] is [None] exactly when the total is 0;
    otherwise it divides the count of the entry [Counts.most_frequent]
    names, returning that bitstring with the quotient or raising
    OverflowError when the quotient does not fit a float. The two disagree
    on counts that are not empty but add up to 0: [Counts.most_frequent]
    still returns an entry. *)
Theorem result_and_counts_most_frequent (r : ExecutionResult.t) :
  let c := ExecutionResult.counts r in
  let total := Counts.total_shots c in
  (ExecutionResult.most_frequent r = Returns None <-> total = 0)
  /\ (total <> 0 ->
      exists bitstring count,
        Counts.most_frequent c = Some (bitstring, count)
        /\ (float_overflows count total = false ->
            ExecutionResult.most_frequent r
            = Returns (Some (bitstring,
                             (inject_Z count / inject_Z total)%Q)))
        /\ (float_overflows count total = true ->
            ExecutionResult.most_frequent r
            = Raises (OverflowError
                        "integer division result too large for a float")))
  /\ (total = 0 -> Counts.items c <> [] ->
      Counts.most_frequent c <> None
      /\ ExecutionResult.most_frequent r = Returns None).
Proof.
  intros c total.
  assert (Hzero : total = 0 -> ExecutionResult.most_frequent r = Returns None).
  { intros H0. unfold ExecutionResult.most_frequent. fold c. fold total.
    now rewrite H0. }
  split; [| split].
  - split; [| exact Hzero].
    intros Hnone. destruct (Z.eq_dec total 0) as [| Hne]; [assumption |].
    destruct (most_frequent_divides r Hne) as (b & n & _ & _ & _ & Hmf).
    fold c in Hmf. fold total in Hmf. rewrite Hmf in Hnone.
    destruct (float_overflows n total) eqn:E.
    + rewrite true_div_out_of_range in Hnone by assumption.
      discriminate Hnone.
    + rewrite true_div_in_range in Hnone by assumption.
      discriminate Hnone.
  - intros Hne.
    destruct (most_frequent_divides r Hne) as (b & n & Hc & _ & _ & Hmf).
    fold c in Hc, Hmf. fold total in Hmf.
    exists b, n. split; [exact Hc |]. split.
    + intros Hfit. rewrite Hmf, true_div_in_range by assumption. reflexivity.
    + intros Hover. rewrite Hmf, true_div_out_of_range by assumption.
      reflexivity.
  - intros H0 Hitems. split; [| exact (Hzero H0)].
    unfold Counts.most_frequent. unfold Counts.items in Hitems.
    destruct (PyDict.items (Counts._counts c)); [contradiction | discriminate].
Qed.

Lemma result_and_counts_most_frequent_witness :
  Counts.total_shots MoreSamples.cancelling_counts = 0
  /\ Counts.most_frequent MoreSamples.cancelling_counts = Some ("0", 4)
  /\ ExecutionResult.most_frequent
       {| ExecutionResult.counts := MoreSamples.cancelling_counts;
          ExecutionResult.shots := 8;
          ExecutionResult.execution_time_ms := None;
          ExecutionResult.metadata := None |}
     = Returns None.
Proof.
  split; [reflexivity |]. split; [reflexivity |].
  destruct (result_and_counts_most_frequent
              {| ExecutionResult.counts := MoreSamples.cancelling_counts;
                 ExecutionResult.shots := 8;
                 ExecutionResult.execution_time_ms := None;
                 ExecutionResult.metadata := None |}) as (_ & _ & H).
  apply H; [reflexivity | discriminate].
Defined.

Lemma probabilities_of_dict (c : Counts.t) :
  Counts.total_shots c <> 0 ->
  CountsRange.in_float_range c = true ->
  Counts.well_formed c ->
  Counts.probabilities c
  = Returns (map (fun kv => (fst kv,
                             (inject_Z (snd kv)
                              / inject_Z (Counts.total_shots c))%Q))
               (Counts.items c)).
Proof.
  intros Hne Hrange Hwf. unfold Counts.probabilities. cbv zeta.
  destruct (Z.eqb_spec (Counts.total_shots c) 0) as [| _]; [contradiction |].
  rewrite outcome_map_divide by assumption. cbn [outcome_bind].
  f_equal. unfold Counts.items, PyDict.items. apply of_pairs_unique.
  rewrite (unique_keys_map_snd
             (fun kv => (inject_Z (snd kv)
                         / inject_Z (Counts.total_shots c))%Q)).
  exact Hwf.
Qed.

Lemma div_le_div (n n' t : Z) :
  0 < t -> n' <= n ->
  (inject_Z n' / inject_Z t <= inject_Z n / inject_Z t)%Q.
Proof.
  intros Ht Hn. unfold Qdiv. apply Qmult_le_compat_r.
  - now rewrite <- Zle_Qle.
  - apply Qinv_le_0_compat. change 0%Q with (inject_Z 0).
    rewrite <- Zle_Qle. lia.
Qed.

(** On counts none of which is negative and with a total that is not 0,
    the two views of a result agree: both return, the pair [most_frequent]
    returns is an entry of the mapping [probabilities] returns, and no
    entry of that mapping has a greater probability. *)
Theorem most_frequent_in_probabilities (r : ExecutionResult.t) :
  Counts.well_formed (ExecutionResult.counts r) ->
  CountsRange.non_negative (ExecutionResult.counts r) = true ->
  Counts.total_shots (ExecutionResult.counts r) <> 0 ->
  exists probs bitstring p,
    ExecutionResult.probabilities r = Returns probs
    /\ ExecutionResult.most_frequent r = Returns (Some (bitstring, p))
    /\ In (bitstring, p) probs
    /\ forall b q, In (b, q) probs -> (q <= p)%Q.
Proof.
  intros Hwf Hnonneg Hne.
  pose proof (non_negative_in_range _ Hnonneg Hne) as Hrange.
  destruct (most_frequent_divides r Hne) as (b & n & _ & Hin & Hmax & Hmf).
  set (c := ExecutionResult.counts r) in *.
  set (total := Counts.total_shots c) in *.
  assert (Hpos : 0 < total).
  { assert (Hvals : forall x, In x (PyDict.values (Counts._counts c)) ->
                              0 <= x).
    { intros x Hx. apply in_map_iff in Hx. destruct Hx as [kv [<- Hkv]].
      unfold CountsRange.non_negative in Hnonneg.
      rewrite forallb_forall in Hnonneg. apply Z.leb_le.
      now apply Hnonneg. }
    destruct (sum_bounds _ Hvals) as [Hsum _].
    subst total. unfold Counts.total_shots in *. lia. }
  assert (Hfit : float_overflows n total = false).
  { unfold CountsRange.in_float_range in Hrange.
    rewrite forallb_forall in Hrange.
    specialize (Hrange (b, n) Hin). now apply negb_true_iff in Hrange. }
  unfold ExecutionResult.probabilities. fold c.
  rewrite (probabilities_of_dict c Hne Hrange Hwf). fold total.
  rewrite Hmf, true_div_in_range by assumption. cbn [outcome_bind].
  eexists. exists b. eexists. split; [reflexivity |].
  split; [reflexivity |]. split.
  - apply in_map_iff. exists (b, n). split; [reflexivity | exact Hin].
  - intros b' q Hq. apply in_map_iff in Hq.
    destruct Hq as [[b0 n0] [[= <- <-] Hin0]]. cbn [snd].
    apply div_le_div; [exact Hpos |]. exact (Hmax b0 n0 Hin0).
Qed.

Lemma most_frequent_in_probabilities_witness :
  Counts.well_formed (ExecutionResult.counts Samples.sample_result)
  /\ CountsRange.non_negative (ExecutionResult.counts Samples.sample_result)
     = true
  /\ Counts.total_shots (ExecutionResult.counts Samples.sample_result) <> 0
  /\ exists probs bitstring p,
       ExecutionResult.probabilities Samples.sample_result = Returns probs
       /\ ExecutionResult.most_frequent Samples.sample_result
          = Returns (Some (bitstring, p))
       /\ In (bitstring, p) probs.
Proof.
  assert (Hne : Counts.total_shots
                  (ExecutionResult.counts Samples.sample_result) <> 0)
    by discriminate.
  split; [reflexivity |]. split; [reflexivity |]. split; [exact Hne |].
  destruct (most_frequent_in_probabilities Samples.sample_result
              eq_refl eq_refl Hne) as (probs & b & p & Hp & Hm & Hin & _).
  exists probs, b, p. repeat split; assumption.
Defined.

Lemma forallb_over_map {A B : Type} (f : B -> bool) (g : A -> B)
  (l : list A) :
  forallb f (map g l) = forallb (fun x => f (g x)) l.
Proof. induction l as [| x l IH]; cbn; [reflexivity | now rewrite IH]. Qed.

Section WaitSchedule.
Context {World : Type}.
Variable self : Backend.t World.
Variable asyncio_sleep : Q -> World -> World.
Variable job_id : JobId.

Lemma pending_until_S (w : World) (k : nat) :
  Trace.pending_until self asyncio_sleep job_id w (S k)
  = Trace.answers_pending (fst (Backend.status self job_id w))
    && Trace.pending_until self asyncio_sleep job_id
         (asyncio_sleep (1 # 2) (snd (Backend.status self job_id w))) k.
Proof.
  unfold Trace.pending_until. cbn [seq forallb]. f_equal.
  rewrite <- seq_shift, forallb_over_map. reflexivity.
Qed.

(** While the schedule answers QUEUED or RUNNING the loop only polls and
    sleeps: after [k] such polls it goes on as a loop with [n] polls left
    from the world of poll [k]. *)
Lemma wait_loop_skip (k : nat) :
  forall n w,
    Trace.pending_until self asyncio_sleep job_id w k = true ->
    Backend.outcome (Backend.wait_loop self asyncio_sleep (k + n) job_id w)
    = Backend.outcome
        (Backend.wait_loop self asyncio_sleep n job_id
           (Backend.world_at_poll self asyncio_sleep job_id k w))
    /\ Trace.final_world
         (Backend.wait_loop self asyncio_sleep (k + n) job_id w)
       = Trace.final_world
           (Backend.wait_loop self asyncio_sleep n job_id
              (Backend.world_at_poll self asyncio_sleep job_id k w)).
Proof.
  induction k as [| k IH]; intros n w Hpend.
  - split; reflexivity.
  - rewrite pending_until_S in Hpend. apply andb_true_iff in Hpend.
    destruct Hpend as [Hhead Htail].
    cbn [Nat.add Backend.world_at_poll]. rewrite wait_loop_step.
    destruct (Backend.status self job_id w) as [[s | e] w1];
      cbn [fst snd] in *; [| discriminate Hhead].
    destruct (IH n _ Htail) as [Hout Hworld].
    destruct s; try discriminate Hhead;
      destruct (Backend.wait_loop self asyncio_sleep (k + n) job_id
                  (asyncio_sleep (1 # 2) w1)) as [[r2 w2] t2];
      split; assumption.
Qed.

(** How the loop ends at a poll that is not pending, by its answer. *)
Lemma wait_loop_stop (n : nat) (w : World) :
  let '(r, w1) := Backend.status self job_id w in
  let run := Backend.wait_loop self asyncio_sleep (S n) job_id w in
  match r with
  | Returns JobStatus.COMPLETED =>
      Backend.outcome run = fst (Backend.result self job_id w1)
      /\ Trace.final_world run = snd (Backend.result self job_id w1)
  | Returns JobStatus.FAILED =>
      Backend.outcome run
      = Raises (JobFailedError ("Job " ++ job_id ++ " failed"))
      /\ Trace.final_world run = w1
  | Returns JobStatus.CANCELLED =>
      Backend.outcome run
      = Raises (JobCancelledError ("Job " ++ job_id ++ " cancelled"))
      /\ Trace.final_world run = w1
  | Raises e => Backend.outcome run = Raises e /\ Trace.final_world run = w1
  | Returns _ => True
  end.
Proof.
  cbv zeta. rewrite wait_loop_step.
  destruct (Backend.status self job_id w) as [[s | e] w1];
    [destruct s |]; try exact I; try (split; reflexivity).
  destruct (Backend.result self job_id w1) as [r2 w2]. split; reflexivity.
Qed.

End WaitSchedule.

Section WaitBySchedule.
Context {World : Type}.
Variable self : Backend.t World.
Variable asyncio_sleep : Q -> World -> World.
Variable job_id : JobId.

(** The loop with [n] polls left, when the schedule is pending for [k]
    polls, [k < n], goes on from poll [k] with at least one poll left. *)
Lemma wait_loop_reach (n k : nat) (w : World) :
  (k < n)%nat ->
  Trace.pending_until self asyncio_sleep job_id w k = true ->
  exists m,
    Backend.outcome (Backend.wait_loop self asyncio_sleep n job_id w)
    = Backend.outcome
        (Backend.wait_loop self asyncio_sleep (S m) job_id
           (Backend.world_at_poll self asyncio_sleep job_id k w))
    /\ Trace.final_world (Backend.wait_loop self asyncio_sleep n job_id w)
       = Trace.final_world
           (Backend.wait_loop self asyncio_sleep (S m) job_id
              (Backend.world_at_poll self asyncio_sleep job_id k w)).
Proof.
  intros Hk Hpend. exists (n - S k)%nat.
  replace n with (k + S (n - S k))%nat at 1 3 by lia.
  now apply wait_loop_skip.
Qed.

(** If the schedule answers QUEUED or RUNNING for [k] polls, [k < 600],
    and COMPLETED at the next, [wait] ends as [result] does when called in
    the world that poll left, with no sleep in between: the same value or
    the same exception, and the same final world. *)
Theorem wait_ends_as_result (k : nat) (w : World) :
  (k < 600)%nat ->
  Trace.pending_until self asyncio_sleep job_id w k = true ->
  fst (Trace.scheduled_poll self asyncio_sleep job_id w k)
  = Returns JobStatus.COMPLETED ->
  let w1 := snd (Trace.scheduled_poll self asyncio_sleep job_id w k) in
  let run := Backend.wait self asyncio_sleep job_id w in
  Backend.outcome run = fst (Backend.result self job_id w1)
  /\ Trace.final_world run = snd (Backend.result self job_id w1).
Proof.
  intros Hk Hpend Hpoll w1 run. subst run w1. rewrite wait_unfold.
  destruct (wait_loop_reach 600 k w Hk Hpend) as (m & -> & ->).
  pose proof (wait_loop_stop self asyncio_sleep job_id m
                (Backend.world_at_poll self asyncio_sleep job_id k w)) as Hs.
  unfold Trace.scheduled_poll in *.
  destruct (Backend.status self job_id
              (Backend.world_at_poll self asyncio_sleep job_id k w))
    as [r w1].
  cbn [fst snd] in *. subst r. exact Hs.
Qed.

(** If the schedule answers QUEUED or RUNNING for [k] polls, [k < 600],
    and then FAILED, CANCELLED or an exception, [wait] stops at that poll:
    it raises JobFailedError "Job <id> failed", JobCancelledError
    "Job <id> cancelled" or the exception of [status], and leaves the world
    as that poll left it, without sleeping or calling [result]. *)
Theorem wait_stops_at_failure (k : nat) (w : World) :
  (k < 600)%nat ->
  Trace.pending_until self asyncio_sleep job_id w k = true ->
  let poll := Trace.scheduled_poll self asyncio_sleep job_id w k in
  let run := Backend.wait self asyncio_sleep job_id w in
  (fst poll = Returns JobStatus.FAILED ->
   Backend.outcome run
   = Raises (JobFailedError ("Job " ++ job_id ++ " failed"))
   /\ Trace.final_world run = snd poll)
  /\ (fst poll = Returns JobStatus.CANCELLED ->
      Backend.outcome run
      = Raises (JobCancelledError ("Job " ++ job_id ++ " cancelled"))
      /\ Trace.final_world run = snd poll)
  /\ (forall e, fst poll = Raises e ->
      Backend.outcome run = Raises e /\ Trace.final_world run = snd poll).
Proof.
  intros Hk Hpend poll run. subst run poll. rewrite wait_unfold.
  destruct (wait_loop_reach 600 k w Hk Hpend) as (m & -> & ->).
  pose proof (wait_loop_stop self asyncio_sleep job_id m
                (Backend.world_at_poll self asyncio_sleep job_id k w)) as Hs.
  unfold Trace.scheduled_poll in *.
  destruct (Backend.status self job_id
              (Backend.world_at_poll self asyncio_sleep job_id k w))
    as [r w1].
  cbn [fst snd] in *.
  split; [| split]; [intros -> | intros -> | intros e ->]; exact Hs.
Qed.

(** If the schedule answers QUEUED or RUNNING at each of its first 600
    polls, [wait] raises TimeoutError "Timeout waiting for job <id>" and
    leaves the world reached after the 600th sleep. *)
Theorem wait_times_out (w : World) :
  Trace.pending_until self asyncio_sleep job_id w 600 = true ->
  let run := Backend.wait self asyncio_sleep job_id w in
  Backend.outcome run
  = Raises (TimeoutError ("Timeout waiting for job " ++ job_id))
  /\ Trace.final_world run
     = Backend.world_at_poll self asyncio_sleep job_id 600 w.
Proof.
  intros Hpend run. subst run. rewrite wait_unfold.
  destruct (wait_loop_skip self asyncio_sleep job_id 600 0 w Hpend)
    as [Hout Hworld].
  rewrite Nat.add_0_r in Hout, Hworld. rewrite Hout, Hworld.
  split; reflexivity.
Qed.

(** Each poll that [wait] makes is the poll of the schedule with the same
    number: [status] is asked in the world left by the poll before it and
    one sleep of half a second. *)
Theorem wait_polls_follow_schedule (w : World) (k : nat)
  (p : Outcome JobStatus.t) :
  nth_error
    (Backend.polls (Backend.trace (Backend.wait self asyncio_sleep job_id w)))
    k = Some p ->
  p = fst (Trace.scheduled_poll self asyncio_sleep job_id w k).
Proof.
  rewrite wait_unfold. apply polls_are_status_answers.
Qed.

End WaitBySchedule.

Lemma wait_ends_as_result_witness :
  (3 < 600)%nat
  /\ Trace.pending_until MoreSamples.counting_backend MoreSamples.keep
       "job-7" 0%nat 3 = true
  /\ Backend.outcome
       (Backend.wait MoreSamples.counting_backend MoreSamples.keep "job-7"
          0%nat)
     = Returns {| ExecutionResult.counts := Counts.empty;
                  ExecutionResult.shots := 4;
                  ExecutionResult.execution_time_ms := None;
                  ExecutionResult.metadata := None |}
  /\ Trace.final_world
       (Backend.wait MoreSamples.counting_backend MoreSamples.keep "job-7"
          0%nat)
     = 104%nat.
Proof.
  assert (Hk : (3 < 600)%nat) by lia.
  split; [exact Hk |]. split; [reflexivity |].
  exact (wait_ends_as_result MoreSamples.counting_backend MoreSamples.keep
           "job-7" 3 0%nat Hk eq_refl eq_refl).
Defined.

Lemma wait_stops_at_failure_witness :
  (2 < 600)%nat
  /\ Trace.pending_until MoreSamples.flaky_backend Samples.tick "job-7"
       0%nat 2 = true
  /\ Backend.outcome
       (Backend.wait MoreSamples.flaky_backend Samples.tick "job-7" 0%nat)
     = Raises (BackendUnavailableError "connection lost")
  /\ Trace.final_world
       (Backend.wait MoreSamples.flaky_backend Samples.tick "job-7" 0%nat)
     = 2%nat.
Proof.
  assert (Hk : (2 < 600)%nat) by lia.
  split; [exact Hk |]. split; [reflexivity |].
  destruct (wait_stops_at_failure MoreSamples.flaky_backend Samples.tick
              "job-7" 2 0%nat Hk eq_refl) as (_ & _ & Hraise).
  exact (Hraise (BackendUnavailableError "connection lost") eq_refl).
Defined.

Lemma wait_times_out_witness :
  Trace.pending_until
    (Samples.timed_backend 200 600 JobStatus.COMPLETED) Samples.tick
    "job-7" 0%nat 600 = true
  /\ Backend.outcome Samples.stalled_run
     = Raises (TimeoutError "Timeout waiting for job job-7")
  /\ Trace.final_world Samples.stalled_run = 600%nat.
Proof.
  assert (Hpend : Trace.pending_until
                    (Samples.timed_backend 200 600 JobStatus.COMPLETED)
                    Samples.tick "job-7" 0%nat 600 = true)
    by (vm_compute; reflexivity).
  split; [exact Hpend |]. unfold Samples.stalled_run.
  destruct (wait_times_out
              (Samples.timed_backend 200 600 JobStatus.COMPLETED)
              Samples.tick "job-7" 0%nat Hpend) as [Hout Hworld].
  split; [exact Hout |].
  rewrite Hworld. vm_compute. reflexivity.
Defined.

Lemma wait_polls_follow_schedule_witness :
  nth_error (Backend.polls (Backend.trace Samples.completed_run)) 4
  = Some (Returns JobStatus.RUNNING)
  /\ Returns JobStatus.RUNNING
     = fst (Trace.scheduled_poll
              (Samples.timed_backend 3 5 JobStatus.COMPLETED) Samples.tick
              "job-7" 0%nat 4).
Proof.
  assert (Hnth : nth_error
                   (Backend.polls (Backend.trace Samples.completed_run)) 4
                 = Some (Returns JobStatus.RUNNING))
    by (vm_compute; reflexivity).
  split; [exact Hnth |].
  exact (wait_polls_follow_schedule
           (Samples.timed_backend 3 5 JobStatus.COMPLETED) Samples.tick
           "job-7" 0%nat 4 (Returns JobStatus.RUNNING) Hnth).
Defined.

(** ** The shape of every run of the wait loop *)

Lemma wait_run_structure (job_id : JobId) (n : nat) tr out :
  Backend.wait_run job_id n tr out ->
  exists pend rest,
    Backend.polls tr = pend ++ rest
    /\ Forall Backend.pending_poll pend
    /\ Trace.sleeps tr = repeat (1 # 2) (List.length pend)
    /\ ((rest = [] /\ List.length pend = n)
        \/ (exists p, rest = [p] /\ ~ Backend.pending_poll p
                      /\ (List.length pend < n)%nat)).
Proof.
  induction 1 as [| n s tr out Hs Hrun IH | n r | n | n | n e].
  - exists [], []. repeat split; [constructor | now left].
  - destruct IH as (pend & rest & Hpolls & Hpend & Hsleeps & Hend).
    exists (Returns s :: pend), rest.
    cbn [Backend.polls Trace.sleeps List.length repeat app].
    rewrite Hpolls, Hsleeps.
    split; [reflexivity |]. split.
    { constructor; [now apply pending_poll_status | exact Hpend]. }
    split; [reflexivity |].
    destruct Hend as [[-> Hlen] | (p & -> & Hp & Hlen)].
    + left. split; [reflexivity | now rewrite Hlen].
    + right. exists p. repeat split; [exact Hp | lia].
  - exists [], [Returns JobStatus.COMPLETED].
    repeat split; [constructor |]. right. eexists. repeat split; [| cbn; lia].
    intros [H | H]; discriminate H.
  - exists [], [Returns JobStatus.FAILED].
    repeat split; [constructor |]. right. eexists. repeat split; [| cbn; lia].
    intros [H | H]; discriminate H.
  - exists [], [Returns JobStatus.CANCELLED].
    repeat split; [constructor |]. right. eexists. repeat split; [| cbn; lia].
    intros [H | H]; discriminate H.
  - exists [], [Raises e].
    repeat split; [constructor |]. right. eexists. repeat split; [| cbn; lia].
    intros [H | H]; discriminate H.
Qed.

Lemma wait_run_one_job (job_id : JobId) (n : nat) tr out :
  Backend.wait_run job_id n tr out ->
  forall c j, In c tr -> Trace.call_job c = Some j -> j = job_id.
Proof.
  induction 1 as [| n s tr out Hs Hrun IH | n r | n | n | n e];
    intros c j Hin Hjob; cbn [In] in Hin.
  - contradiction.
  - destruct Hin as [<- | [<- | Hin]].
    + now injection Hjob.
    + discriminate Hjob.
    + exact (IH c j Hin Hjob).
  - destruct Hin as [<- | [<- | []]]; now injection Hjob.
  - destruct Hin as [<- | []]; now injection Hjob.
  - destruct Hin as [<- | []]; now injection Hjob.
  - destruct Hin as [<- | []]; now injection Hjob.
Qed.

Section WaitShape.
Context {World : Type}.
Variable self : Backend.t World.
Variable asyncio_sleep : Q -> World -> World.

(** Every run of [wait] polls until the first answer that is not QUEUED or
    RUNNING and at most 600 times; it sleeps half a second after each
    pending poll, also after the 600th, and never otherwise. *)
Theorem wait_polls_then_sleeps (job_id : JobId) (w : World) :
  let tr := Backend.trace (Backend.wait self asyncio_sleep job_id w) in
  exists pend rest,
    Backend.polls tr = pend ++ rest
    /\ Forall Backend.pending_poll pend
    /\ Trace.sleeps tr = repeat (1 # 2) (List.length pend)
    /\ ((rest = [] /\ List.length pend = 600%nat)
        \/ (exists p, rest = [p] /\ ~ Backend.pending_poll p
                      /\ (List.length pend < 600)%nat)).
Proof.
  cbv zeta. rewrite wait_unfold.
  exact (wait_run_structure job_id 600 _ _
           (wait_loop_run self asyncio_sleep job_id 600 w)).
Qed.

(** Every call of [status] and of [result] that [wait] makes is about the
    job it was asked to wait for. *)
Theorem wait_asks_about_one_job (job_id : JobId) (w : World) :
  Forall
    (fun c => Trace.call_job c = None \/ Trace.call_job c = Some job_id)
    (Backend.trace (Backend.wait self asyncio_sleep job_id w)).
Proof.
  rewrite wait_unfold. apply Forall_forall. intros c Hin.
  destruct (Trace.call_job c) as [j |] eqn:Ej; [right | now left].
  f_equal.
  exact (wait_run_one_job job_id 600 _ _
           (wait_loop_run self asyncio_sleep job_id 600 w) c j Hin Ej).
Qed.

End WaitShape.

(** ** Capabilities presets *)

(** The simulator preset is all-to-all over its qubits and counts every
    gate it supports as native. *)
Theorem simulator_capabilities (n a b : Z) (gate : string) :
  let caps := Capabilities.simulator n in
  (Topology.is_connected (Capabilities.topology caps) a b = true
   <-> 0 <= a < Capabilities.num_qubits caps
       /\ 0 <= b < Capabilities.num_qubits caps /\ a <> b)
  /\ GateSet.is_native (Capabilities.gate_set caps) gate
     = GateSet.contains (Capabilities.gate_set caps) gate.
Proof.
  cbv zeta. cbn [Capabilities.simulator Capabilities.topology
                 Capabilities.num_qubits Capabilities.gate_set].
  split; [apply full_connected_iff | reflexivity].
Qed.

(** The IQM preset is a star around qubit 0: the hub is connected to every
    other qubit of the device and no two outer qubits are connected; its
    native gates are exactly "prx" and "cz". *)
Theorem iqm_capabilities (name : string) (n a b : Z) (gate : string) :
  let caps := Capabilities.iqm name n in
  (1 <= b < Capabilities.num_qubits caps ->
   Topology.is_connected (Capabilities.topology caps) 0 b = true)
  /\ (a <> 0 -> b <> 0 ->
      Topology.is_connected (Capabilities.topology caps) a b = false)
  /\ (GateSet.is_native (Capabilities.gate_set caps) gate = true
      <-> gate = "prx" \/ gate = "cz").
Proof.
  cbv zeta. cbn [Capabilities.iqm Capabilities.topology
                 Capabilities.num_qubits Capabilities.gate_set].
  split; [| split].
  - intros Hb. apply star_connected_iff. left.
    split; [reflexivity | exact Hb].
  - intros Ha Hb. apply not_true_is_false. rewrite star_connected_iff. lia.
  - unfold GateSet.is_native. cbn [GateSet.iqm GateSet.native].
    rewrite str_in_In. cbn [In]. intuition congruence.
Qed.
